(** * Library model access of ozp-backend: a shallow embedding

    Source: [ozpcenter/api/library/model_access.py].  The module reads and
    writes the bookmarks ("application library entries") of a user, mirrors
    the reads through Django's cache, imports the bookmarks shared through a
    peer notification and reorganizes bookmarks into folders in one batch.

    The embedding threads an explicit [World] (cache, library table, the
    record of dismissed notifications and the log of issued database reads)
    through a small state-and-exception monad, so that every function below
    reads like the Python function of the same name. *)

From stdpp Require Import base option list strings pretty gmap fin_maps.
From Stdlib Require Import ZArith Lia.

Local Open Scope Z_scope.

(** ** Data model *)

(** The columns of [models.Listing] that this module reads. *)
Record Listing := mkListing {
  listing_id : Z;
  listing_title : string;
  is_deleted : bool;
  is_enabled : bool;
  listing_type_title : option string;
}.

(** [models.Profile]; [profile_username] is [profile.user.username]. *)
Record Profile := mkProfile {
  profile_id : Z;
  profile_username : string;
}.

(** [models.ApplicationLibraryEntry].  An object that was never saved has no
    primary key ([entry_pk = None]).  The row carries its joined listing and
    owner rows, which is what the [listing__...] and [owner__...] lookups of
    the queries read; nothing in this module writes to those tables. *)
Record ApplicationLibraryEntry := mkEntry {
  entry_pk : option Z;
  entry_listing : Listing;
  entry_owner : Profile;
  entry_folder : option string;
}.

(** The [peer] payload of a notification, by the keys the import reads:
    [peer['user']['username']], [peer['folder_name']] and
    [peer['_bookmark_listing_ids']]; [None] is an absent key. *)
Record PeerData := mkPeer {
  peer_user_username : option string;
  peer_folder_name : option string;
  peer_bookmark_listing_ids : option (list Z);
}.

(** [models.Notification]; [notification_type] is the value returned by the
    method of that name. *)
Record Notification := mkNotification {
  notification_id : Z;
  notification_type : string;
  peer : PeerData;
}.

(** One element of the payload of the batch update, a dict with the optional
    keys ['listing'] (itself a dict with an optional ['id']), ['id'] and
    ['folder'] (whose value may be null).  The outer [None] is an absent key. *)
Record DataEntry := mkDataEntry {
  de_listing : option (option Z);
  de_id : option Z;
  de_folder : option (option string);
}.

(** The dict [new_data_entry] built during validation. *)
Record NewDataEntry := mkNewDataEntry {
  nd_listing : option Listing;
  nd_id : option Z;
  nd_folder : option (option string);
}.

(** A Python object held by the cache or returned by a read: one entry or an
    evaluated queryset. *)
Inductive pyobj :=
| Entry (e : ApplicationLibraryEntry)
| QuerySet (rows : list ApplicationLibraryEntry).

(** A read issued against the library table. *)
Inductive query :=
| SelectAll
| SelectById (library_entry_id : Z)
| SelectLibrary (username : string) (listing_type folder_name : option string).

Inductive exn_class := Exception | ObjectDoesNotExist | AttributeError | KeyError.

Record exn := mkExn { exn_cls : exn_class; exn_msg : string }.

Inductive outcome (A : Type) :=
| Returned (a : A)
| Raised (e : exn).
Arguments Returned {A} a.
Arguments Raised {A} e.

(** The state the module acts on.  [dismissed] records every call of
    [dismiss_notification] and [queries] every read of the library table, in
    order, most recent last. *)
Record World := mkWorld {
  cache : gmap string pyobj;
  library : gmap Z ApplicationLibraryEntry;
  dismissed : list (Z * string);
  queries : list query;
}.

(** The functions of the repository that this module calls and whose source is
    outside it.  They are lookups in stores this module never writes to. *)
Class Collaborators := {
  (** [utils.make_keysafe] *)
  make_keysafe : string → string;
  (** [listing_model_access.get_listing_by_id(username, id)]; the id is
      [None] when the payload carries none. *)
  get_listing_by_id : string → option Z → option Listing;
  (** [generic_model_access.get_profile(username)] *)
  get_profile : string → option Profile;
  (** [notification_model_access.get_notification_by_id(username, id)] *)
  get_notification_by_id : string → Z → option Notification;
}.

(** ** The state-and-exception monad *)

Definition M (A : Type) : Type := World → outcome A * World.

Definition ret {A} (a : A) : M A := λ w, (Returned a, w).

Definition bind {A B} (m : M A) (k : A → M B) : M B := λ w,
  match m w with
  | (Returned a, w') => k a w'
  | (Raised e, w') => (Raised e, w')
  end.

Definition raise {A} (cls : exn_class) (msg : string) : M A := λ w,
  (Raised (mkExn cls msg), w).

(** [isinstance(e, cls)]: every class here derives from [Exception]. *)
Definition isinstance (e : exn) (cls : exn_class) : bool :=
  match cls, exn_cls e with
  | Exception, _ => true
  | ObjectDoesNotExist, ObjectDoesNotExist => true
  | AttributeError, AttributeError => true
  | KeyError, KeyError => true
  | _, _ => false
  end.

(** [try: body except cls: handler]; the effects of [body] up to the raise
    stay. *)
Definition try_except {A} (body : M A) (cls : exn_class) (handler : M A) : M A := λ w,
  match body w with
  | (Returned a, w') => (Returned a, w')
  | (Raised e, w') => if isinstance e cls then handler w' else (Raised e, w')
  end.

Global Instance M_ret : MRet M := @ret.
Global Instance M_bind : MBind M := λ A B k m, bind m k.

(** ** Cache and database primitives *)

(** [cache.get(key)] *)
Definition cache_get (key : string) : M (option pyobj) := λ w,
  (Returned (cache w !! key), w).

(** [cache.set(key, data)] *)
Definition cache_set (key : string) (data : pyobj) : M unit := λ w,
  (Returned tt, mkWorld (<[key := data]> (cache w)) (library w) (dismissed w) (queries w)).

Definition log_query (q : query) : M unit := λ w,
  (Returned tt, mkWorld (cache w) (library w) (dismissed w) (queries w ++ [q])).

(** The rows of the table satisfying [p], as a queryset evaluates them. *)
Definition select (p : ApplicationLibraryEntry → bool) (w : World) : list ApplicationLibraryEntry :=
  List.filter p (map_to_list (library w)).*2.

(** [objects.filter(...)], evaluated. *)
Definition orm_filter (q : query) (p : ApplicationLibraryEntry → bool) : M (list ApplicationLibraryEntry) :=
  log_query q;; ((λ w, (Returned (select p w), w)) : M _).

(** [objects.filter(...).get(id=library_entry_id)] *)
Definition orm_get (p : ApplicationLibraryEntry → bool) (library_entry_id : Z) : M ApplicationLibraryEntry :=
  log_query (SelectById library_entry_id);;
  row ← ((λ w, (Returned (library w !! library_entry_id), w)) : M _);
  match row with
  | Some e =>
      if p e then mret e
      else raise ObjectDoesNotExist "ApplicationLibraryEntry matching query does not exist."
  | None => raise ObjectDoesNotExist "ApplicationLibraryEntry matching query does not exist."
  end.

(** The key the table gives a new row: one past the largest key in use. *)
Definition fresh_id (t : gmap Z ApplicationLibraryEntry) : Z :=
  1 + map_fold (λ k _ acc, Z.max k acc) 0 t.

(** [entry.save()]: an object without a primary key is inserted under a fresh
    one, an object with a primary key overwrites the row of that key.  The
    saved object is returned. *)
Definition save (e : ApplicationLibraryEntry) : M ApplicationLibraryEntry := λ w,
  let k := default (fresh_id (library w)) (entry_pk e) in
  let e' := mkEntry (Some k) (entry_listing e) (entry_owner e) (entry_folder e) in
  (Returned e', mkWorld (cache w) (<[k := e']> (library w)) (dismissed w) (queries w)).

(** [notification_model_access.dismiss_notification(notification_entry, username)] *)
Definition dismiss_notification (n : Notification) (username : string) : M unit := λ w,
  (Returned tt,
   mkWorld (cache w) (library w) (dismissed w ++ [(notification_id n, username)]) (queries w)).

(** Truth value of an optional string: [None] and [''] are false. *)
Definition truthy (s : option string) : bool :=
  match s with
  | Some s => negb (String.eqb s "")
  | None => false
  end.

(** ['{0!s}'.format(x)] of an optional string. *)
Definition str_opt (s : option string) : string := default "None" s.

(** ** Reads through the cache *)

Section Reads.
Context `{Collaborators}.

Definition get_all_library_entries : M (option pyobj) :=
  let key := "library_entries" in
  data ← cache_get key;
  match data with
  | None =>
      try_except
        (data ← orm_filter SelectAll (λ e, negb (is_deleted (entry_listing e)));
         cache_set key (QuerySet data);;
         mret (Some (QuerySet data)))
        ObjectDoesNotExist
        (mret None)
  | Some data => mret (Some data)
  end.

Definition get_library_entry_by_id (library_entry_id : Z) : M (option pyobj) :=
  let key := "library:" +:+ pretty library_entry_id in
  data ← cache_get key;
  match data with
  | None =>
      try_except
        (data ← orm_get (λ e, negb (is_deleted (entry_listing e))) library_entry_id;
         cache_set key (Entry data);;
         mret (Some (Entry data)))
        ObjectDoesNotExist
        (mret None)
  | Some data => mret (Some data)
  end.

(** The filters the function chains, as one predicate on rows. *)
Definition library_filter (username : string) (listing_type folder_name : option string)
    (e : ApplicationLibraryEntry) : bool :=
  String.eqb (profile_username (entry_owner e)) username
  && is_enabled (entry_listing e)
  && negb (is_deleted (entry_listing e))
  && (if truthy listing_type
      then bool_decide (listing_type_title (entry_listing e) = listing_type) else true)
  && (if truthy folder_name
      then bool_decide (entry_folder e = folder_name) else true).

Definition get_self_application_library (username : string)
    (listing_type folder_name : option string) : M (option pyobj) :=
  let username := make_keysafe username in
  let key := "app_library(" +:+ str_opt listing_type +:+ "):" +:+ username in
  data ← cache_get key;
  match data with
  | None =>
      try_except
        (data ← orm_filter (SelectLibrary username listing_type folder_name)
                  (library_filter username listing_type folder_name);
         cache_set key (QuerySet data);;
         mret (Some (QuerySet data)))
        ObjectDoesNotExist
        (mret None)
  | Some data => mret (Some data)
  end.
End Reads.

(** ** Writes *)

(** [d[key]] on a dict whose entry for [key] is [v]. *)
Definition getitem {A} (v : option A) (key : string) : M A :=
  match v with
  | Some a => mret a
  | None => raise KeyError key
  end.

(** [instance.folder = folder] *)
Definition set_folder (instance : option pyobj) (folder : option string) : M (option pyobj) :=
  match instance with
  | None => raise AttributeError "'NoneType' object has no attribute 'folder'"
  | Some (Entry e) =>
      mret (Some (Entry (mkEntry (entry_pk e) (entry_listing e) (entry_owner e) folder)))
  | Some (QuerySet rows) => mret (Some (QuerySet rows))
  end.

(** [instance.listing = listing] *)
Definition set_listing (instance : option pyobj) (listing : Listing) : M (option pyobj) :=
  match instance with
  | None => raise AttributeError "'NoneType' object has no attribute 'listing'"
  | Some (Entry e) =>
      mret (Some (Entry (mkEntry (entry_pk e) listing (entry_owner e) (entry_folder e))))
  | Some (QuerySet rows) => mret (Some (QuerySet rows))
  end.

(** [instance.save()] *)
Definition call_save (instance : option pyobj) : M unit :=
  match instance with
  | None => raise AttributeError "'NoneType' object has no attribute 'save'"
  | Some (Entry e) => save e;; mret tt
  | Some (QuerySet _) => raise AttributeError "'QuerySet' object has no attribute 'save'"
  end.

(** Truth value of a list. *)
Definition nonempty {A} (l : list A) : bool :=
  match l with
  | [] => false
  | _ :: _ => true
  end.

Section Writes.
Context `{Collaborators}.

Definition create_self_user_library_entry (username : string) (listing_id : Z)
    (folder_name : option string) : M ApplicationLibraryEntry :=
  let listing := get_listing_by_id username (Some listing_id) in
  let owner := get_profile username in
  match listing, owner with
  | Some listing, Some owner =>
      let entry := mkEntry None listing owner folder_name in
      save entry
  | _, _ => raise Exception "Listing or user not found"
  end.

(** The loop over [peer_bookmark_list] of [import_bookmarks]. *)
Fixpoint import_loop (current_username : string) (peer_folder_name : option string)
    (peer_bookmark_list : list Z) (validated_data : list ApplicationLibraryEntry)
    : M (list ApplicationLibraryEntry) :=
  match peer_bookmark_list with
  | [] => mret validated_data
  | current_bookmark_listing_id :: rest =>
      validated_data ←
        try_except
          (entry ← create_self_user_library_entry current_username
                     current_bookmark_listing_id peer_folder_name;
           mret (validated_data ++ [entry]))
          Exception
          (mret validated_data);
      import_loop current_username peer_folder_name rest validated_data
  end.

Definition import_bookmarks (current_username : string) (peer_bookmark_notification_id : Z)
    : M (option (list string) * option (list ApplicationLibraryEntry)) :=
  let validated_data := [] in
  let errors := [] in
  let notification_entry :=
    get_notification_by_id current_username peer_bookmark_notification_id in
  match notification_entry with
  | None =>
      let errors := errors ++ ["Could not find Notification Entry"] in
      mret (Some errors, None)
  | Some notification_entry =>
      let notification_entry_type := notification_type notification_entry in
      if negb (String.eqb notification_entry_type "PEER.BOOKMARK") then
        let errors := errors ++
          ["Notification Entry should be 'PEER.BOOKMARK' but it is '"
             +:+ notification_entry_type +:+ "'"] in
        mret (Some errors, None)
      else
        let peer_data := peer notification_entry in
        let peer_username := peer_user_username peer_data in
        let peer_folder_name := peer_folder_name peer_data in
        let peer_bookmark_list := default [] (peer_bookmark_listing_ids peer_data) in
        let errors :=
          if negb (bool_decide (peer_username = Some current_username))
          then errors ++ ["Target username does not match current user's username"]
          else errors in
        let errors :=
          if negb (truthy peer_folder_name)
          then errors ++ ["Could not find folder_name entry"]
          else errors in
        let errors :=
          if negb (nonempty peer_bookmark_list)
          then errors ++ ["Could not find peer bookmark list entry"]
          else errors in
        if nonempty errors then mret (Some errors, None)
        else
          validated_data ← import_loop current_username peer_folder_name
                             peer_bookmark_list validated_data;
          dismiss_notification notification_entry current_username;;
          if nonempty errors then mret (Some errors, None)
          else mret (None, Some validated_data)
  end.

(** One iteration of the validation loop of
    [batch_update_user_library_entry], on the pair [(errors, validated_data)]. *)
Definition validate_entry (username : string)
    (st : list string * list NewDataEntry) (data_entry : DataEntry)
    : list string * list NewDataEntry :=
  let '(errors, validated_data) := st in
  let error := false in
  let new_data_entry := mkNewDataEntry None None None in
  let '(errors, error, new_data_entry) :=
    match de_listing data_entry with
    | None => (errors ++ ["Missing listing from data entry"], true, new_data_entry)
    | Some listing_id =>
        match get_listing_by_id username listing_id with
        | None => (errors ++ ["Listing obj not found"], true, new_data_entry)
        | Some listing_obj =>
            (errors, error,
             mkNewDataEntry (Some listing_obj) (nd_id new_data_entry) (nd_folder new_data_entry))
        end
    end in
  let '(errors, error, new_data_entry) :=
    match de_id data_entry with
    | None => (errors ++ ["Missing id from data entry"], true, new_data_entry)
    | Some i =>
        (errors, error,
         mkNewDataEntry (nd_listing new_data_entry) (Some i) (nd_folder new_data_entry))
    end in
  let new_data_entry :=
    match de_folder data_entry with
    | None => mkNewDataEntry (nd_listing new_data_entry) (nd_id new_data_entry) (Some None)
    | Some folder =>
        mkNewDataEntry (nd_listing new_data_entry) (nd_id new_data_entry) (Some folder)
    end in
  if negb error then (errors, validated_data ++ [new_data_entry])
  else (errors, validated_data).

(** The loop over [validated_data] of [batch_update_user_library_entry]. *)
Fixpoint apply_loop (validated_data : list NewDataEntry) : M unit :=
  match validated_data with
  | [] => mret tt
  | data_entry :: rest =>
      library_entry_id ← getitem (nd_id data_entry) "id";
      instance ← get_library_entry_by_id library_entry_id;
      folder ← getitem (nd_folder data_entry) "folder";
      instance ← set_folder instance folder;
      listing ← getitem (nd_listing data_entry) "listing";
      instance ← set_listing instance listing;
      call_save instance;;
      apply_loop rest
  end.

Definition batch_update_user_library_entry (username : string) (data : list DataEntry)
    : M (option (list string) * option (list DataEntry)) :=
  let validated_data := [] in
  let errors := [] in
  let '(errors, validated_data) :=
    foldl (validate_entry username) (errors, validated_data) data in
  if nonempty errors then mret (Some errors, None)
  else
    apply_loop validated_data;;
    mret (None, Some data).
End Writes.

(** ** A concrete installation, used to run the functions

    Three listings visible to alice and to guest (listing 3 is deleted),
    profiles for alice and bob but none for guest, and four notifications
    addressed to alice. *)
Module Fixture.
Definition wiki : Listing := mkListing 1 "Wiki" false true (Some "web application").
Definition mail : Listing := mkListing 2 "Mail" false true (Some "widget").
Definition maps : Listing := mkListing 3 "Maps" true true (Some "widget").

Definition alice : Profile := mkProfile 1 "alice".
Definition bob : Profile := mkProfile 2 "bob".

Definition share : Notification :=
  mkNotification 10 "PEER.BOOKMARK" (mkPeer (Some "alice") (Some "shared") (Some [1; 99; 2])).
Definition system_notice : Notification :=
  mkNotification 11 "SYSTEM" (mkPeer None None None).
Definition misaddressed : Notification :=
  mkNotification 12 "PEER.BOOKMARK" (mkPeer (Some "bob") None (Some [])).
Definition unresolvable : Notification :=
  mkNotification 13 "PEER.BOOKMARK" (mkPeer (Some "alice") (Some "shared") (Some [99])).

Definition env : Collaborators := {|
  make_keysafe := λ s, s;
  get_listing_by_id := λ username listing_id,
    if String.eqb username "alice" || String.eqb username "guest" then
      match listing_id with
      | Some 1 => Some wiki
      | Some 2 => Some mail
      | Some 3 => Some maps
      | _ => None
      end
    else None;
  get_profile := λ username,
    if String.eqb username "alice" then Some alice
    else if String.eqb username "bob" then Some bob
    else None;
  get_notification_by_id := λ username notification_id,
    if String.eqb username "alice" then
      match notification_id with
      | 10 => Some share
      | 11 => Some system_notice
      | 12 => Some misaddressed
      | 13 => Some unresolvable
      | _ => None
      end
    else None;
|}.

Definition row1 : ApplicationLibraryEntry := mkEntry (Some 1) wiki alice None.
Definition row2 : ApplicationLibraryEntry := mkEntry (Some 2) mail alice (Some "work").
Definition row3 : ApplicationLibraryEntry := mkEntry (Some 3) mail alice (Some "home").

Definition empty_world : World := mkWorld ∅ ∅ [] [].

Definition world : World :=
  mkWorld ∅ (<[1 := row1]> (<[2 := row2]> (<[3 := row3]> ∅))) [] [].

(** A batch of three whose second element names a listing that does not
    resolve. *)
Definition second_unresolvable : list DataEntry :=
  [mkDataEntry (Some (Some 1)) (Some 1) (Some (Some "tools"));
   mkDataEntry (Some (Some 99)) (Some 2) None;
   mkDataEntry (Some (Some 2)) (Some 3) (Some None)].

(** A batch of three that passes validation and whose second element names
    a library entry that does not exist. *)
Definition second_missing : list DataEntry :=
  [mkDataEntry (Some (Some 2)) (Some 1) (Some (Some "tools"));
   mkDataEntry (Some (Some 1)) (Some 99) None;
   mkDataEntry (Some (Some 1)) (Some 3) (Some (Some "tools"))].
End Fixture.

(** ** Vocabulary of the statements *)

(** The three cached reads, as one family. *)
Inductive read_op :=
| GetAll
| GetById (library_entry_id : Z)
| GetSelf (username : string) (listing_type folder_name : option string).

(** The row [library_entry_id] of the table, when its listing is not deleted. *)
Definition visible_row (w : World) (library_entry_id : Z) : option ApplicationLibraryEntry :=
  match library w !! library_entry_id with
  | Some e => if is_deleted (entry_listing e) then None else Some e
  | None => None
  end.

Section Vocabulary.
Context `{Collaborators}.

Definition run_read (r : read_op) : M (option pyobj) :=
  match r with
  | GetAll => get_all_library_entries
  | GetById library_entry_id => get_library_entry_by_id library_entry_id
  | GetSelf username listing_type folder_name =>
      get_self_application_library username listing_type folder_name
  end.

(** The cache key of a read. *)
Definition read_key (r : read_op) : string :=
  match r with
  | GetAll => "library_entries"
  | GetById library_entry_id => "library:" +:+ pretty library_entry_id
  | GetSelf username listing_type _ =>
      "app_library(" +:+ str_opt listing_type +:+ "):" +:+ make_keysafe username
  end.

(** What the table answers to a read; [None] is [ObjectDoesNotExist]. *)
Definition read_load (r : read_op) (w : World) : option pyobj :=
  match r with
  | GetAll => Some (QuerySet (select (λ e, negb (is_deleted (entry_listing e))) w))
  | GetById library_entry_id => Entry <$> visible_row w library_entry_id
  | GetSelf username listing_type folder_name =>
      Some (QuerySet (select (library_filter (make_keysafe username) listing_type folder_name) w))
  end.

(** The read of the table that a cache miss issues. *)
Definition read_query (r : read_op) : query :=
  match r with
  | GetAll => SelectAll
  | GetById library_entry_id => SelectById library_entry_id
  | GetSelf username listing_type folder_name =>
      SelectLibrary (make_keysafe username) listing_type folder_name
  end.

(** The three writes, as one family. *)
Inductive write_op :=
| Create (username : string) (listing_id : Z) (folder_name : option string)
| Import (current_username : string) (peer_bookmark_notification_id : Z)
| BatchUpdate (username : string) (data : list DataEntry).

(** The world a write leaves, whether it returns or raises. *)
Definition run_write (o : write_op) (w : World) : World :=
  match o with
  | Create username listing_id folder_name =>
      (create_self_user_library_entry username listing_id folder_name w).2
  | Import current_username peer_bookmark_notification_id =>
      (import_bookmarks current_username peer_bookmark_notification_id w).2
  | BatchUpdate username data => (batch_update_user_library_entry username data w).2
  end.

(** The messages validation appends for one element of the batch payload. *)
Definition entry_errors (username : string) (data_entry : DataEntry) : list string :=
  match de_listing data_entry with
  | None => ["Missing listing from data entry"]
  | Some listing_id =>
      match get_listing_by_id username listing_id with
      | None => ["Listing obj not found"]
      | Some _ => []
      end
  end ++
  match de_id data_entry with
  | None => ["Missing id from data entry"]
  | Some _ => []
  end.

(** An element of the batch payload fails validation: it has no ['listing'],
    or its listing id does not resolve, or it has no ['id']. *)
Definition entry_invalid (username : string) (data_entry : DataEntry) : Prop :=
  de_listing data_entry = None
  ∨ (∃ listing_id, de_listing data_entry = Some listing_id
                   ∧ get_listing_by_id username listing_id = None)
  ∨ de_id data_entry = None.

(** The dict validation keeps for an element of the batch payload that
    raises no error. *)
Definition accepted (username : string) (data_entry : DataEntry) : option NewDataEntry :=
  match de_listing data_entry, de_id data_entry with
  | Some listing_id, Some library_entry_id =>
      match get_listing_by_id username listing_id with
      | Some listing_obj =>
          Some (mkNewDataEntry (Some listing_obj) (Some library_entry_id)
                  (Some (default None (de_folder data_entry))))
      | None => None
      end
  | _, _ => None
  end.

(** The listing, owner and folder of the entry that importing
    [listing_id] creates, when both lookups succeed. *)
Definition resolved (username : string) (folder_name : option string) (listing_id : Z)
    : option (Listing * Profile * option string) :=
  listing ← get_listing_by_id username (Some listing_id);
  owner ← get_profile username;
  Some (listing, owner, folder_name).

(** The notification of an import does not pass validation. *)
Definition import_invalid (current_username : string) (peer_bookmark_notification_id : Z) : Prop :=
  match get_notification_by_id current_username peer_bookmark_notification_id with
  | None => True
  | Some n =>
      notification_type n ≠ "PEER.BOOKMARK"
      ∨ peer_user_username (peer n) ≠ Some current_username
      ∨ truthy (peer_folder_name (peer n)) = false
      ∨ default [] (peer_bookmark_listing_ids (peer n)) = []
  end.

(** A notification that passes every check. *)
Definition import_valid (current_username : string) (n : Notification) (ids : list Z) : Prop :=
  notification_type n = "PEER.BOOKMARK"
  ∧ peer_user_username (peer n) = Some current_username
  ∧ truthy (peer_folder_name (peer n)) = true
  ∧ default [] (peer_bookmark_listing_ids (peer n)) = ids
  ∧ ids ≠ [].
End Vocabulary.

(** A computation never removes or changes what the cache holds. *)
Definition preserves_cache {A} (m : M A) : Prop :=
  ∀ w, cache w ⊆ cache (m w).2.

(** Which of the two lookups of [create_self_user_library_entry] failed. *)
Inductive missing_side := MissingListing | MissingProfile.

Definition entry_fields (e : ApplicationLibraryEntry) : Listing * Profile * option string :=
  (entry_listing e, entry_owner e, entry_folder e).

(** ** Access controls

    Source: [ozpcenter/api/access_control/model_access.py].  The two reads
    of that module go through the same cache under keys of their own; the
    state below is the part of the cache under those keys and the table of
    access controls. *)

(** [models.AccessControl] *)
Record AccessControl := mkAccessControl {
  access_control_id : Z;
  access_control_title : string;
}.

(** What the cache holds under the keys of this module. *)
Inductive access_obj :=
| AccessControlObj (a : AccessControl)
| AccessControlSet (rows : list AccessControl).

Record AccessWorld := mkAccessWorld {
  access_cache : gmap string access_obj;
  access_controls : list AccessControl;
}.

(** How a call ends: it returns, or [MultipleObjectsReturned] leaves it
    (the only exception the reads do not catch). *)
Inductive access_outcome (A : Type) :=
| AccessReturned (a : A)
| MultipleObjectsReturned.
Arguments AccessReturned {A} a.
Arguments MultipleObjectsReturned {A}.

(** The three ways [objects.get(...)] ends. *)
Inductive get_result :=
| GetOne (a : AccessControl)
| DoesNotExist
| MultipleObjects.

(** [models.AccessControl.objects.get(title=title)] *)
Definition objects_get_by_title (title : string) (rows : list AccessControl) : get_result :=
  match List.filter (λ a, String.eqb (access_control_title a) title) rows with
  | [] => DoesNotExist
  | [a] => GetOne a
  | _ :: _ :: _ => MultipleObjects
  end.

Section AccessControls.
Context `{Collaborators}.

(** [objects.all()] raises nothing, so the handler of the source is never
    entered. *)
Definition get_all_access_controls (w : AccessWorld)
    : access_outcome (option access_obj) * AccessWorld :=
  let key := "access_control" in
  let data := access_cache w !! key in
  match data with
  | None =>
      let data := AccessControlSet (access_controls w) in
      (AccessReturned (Some data),
       mkAccessWorld (<[key := data]> (access_cache w)) (access_controls w))
  | Some data => (AccessReturned (Some data), w)
  end.

Definition get_access_control_by_title (title : string) (w : AccessWorld)
    : access_outcome (option access_obj) * AccessWorld :=
  let key := "access_control:" +:+ make_keysafe title in
  let data := access_cache w !! key in
  match data with
  | None =>
      match objects_get_by_title title (access_controls w) with
      | GetOne a =>
          let data := AccessControlObj a in
          (AccessReturned (Some data),
           mkAccessWorld (<[key := data]> (access_cache w)) (access_controls w))
      | DoesNotExist => (AccessReturned None, w)
      | MultipleObjects => (MultipleObjectsReturned, w)
      end
  | Some data => (AccessReturned (Some data), w)
  end.
End AccessControls.

(** ** More vocabulary *)

(** Every row of the table is stored under its own primary key. *)
Definition table_keyed (w : World) : Prop :=
  ∀ k e, library w !! k = Some e → entry_pk e = Some k.

(** What the cache holds under ['library:<id>'] is an entry with primary
    key [id]. *)
Definition cache_keyed (w : World) : Prop :=
  ∀ i d, cache w !! ("library:" +:+ pretty i) = Some d →
         ∃ e, d = Entry e ∧ entry_pk e = Some i.

Definition consistent (w : World) : Prop := table_keyed w ∧ cache_keyed w.

(** [get_library_entry_by_id] has an answer for the id: it is cached, or the
    table has a row for it whose listing is not deleted. *)
Definition resolves (w : World) (library_entry_id : Z) : Prop :=
  is_Some (cache w !! ("library:" +:+ pretty library_entry_id))
  ∨ is_Some (visible_row w library_entry_id).

(** What [get_library_entry_by_id] answers in a world. *)
Definition lookup_result (w : World) (library_entry_id : Z) : option pyobj :=
  match cache w !! ("library:" +:+ pretty library_entry_id) with
  | Some d => Some d
  | None => Entry <$> visible_row w library_entry_id
  end.

(** A computation leaves a component of the world as it was. *)
Definition keeps {A B} (component : World → B) (m : M A) : Prop :=
  ∀ w, component (m w).2 = component w.

(** A computation keeps a property of the world. *)
Definition maintains {A} (inv : World → Prop) (m : M A) : Prop :=
  ∀ w, inv w → inv (m w).2.

(** An installation in which carol has a valid notification and every
    listing resolves, but nobody has a profile. *)
Module Orphan.
Definition share : Notification :=
  mkNotification 20 "PEER.BOOKMARK" (mkPeer (Some "carol") (Some "shared") (Some [1; 2])).

Definition env : Collaborators := {|
  make_keysafe := λ s, s;
  get_listing_by_id := λ username listing_id,
    match listing_id with
    | Some 1 => Some Fixture.wiki
    | Some 2 => Some Fixture.mail
    | _ => None
    end;
  get_profile := λ username, None;
  get_notification_by_id := λ username notification_id,
    if String.eqb username "carol" && Z.eqb notification_id 20 then Some share else None;
|}.
End Orphan.

(** The installation of [Fixture] with one more notification for alice,
    all of whose listings resolve, and a batch for alice whose entries all
    exist. *)
Module Shared.
Definition share : Notification :=
  mkNotification 30 "PEER.BOOKMARK" (mkPeer (Some "alice") (Some "inbox") (Some [2; 1; 2])).

Definition env : Collaborators := {|
  make_keysafe := @make_keysafe Fixture.env;
  get_listing_by_id := @get_listing_by_id Fixture.env;
  get_profile := @get_profile Fixture.env;
  get_notification_by_id := λ username notification_id,
    if String.eqb username "alice" && Z.eqb notification_id 30 then Some share
    else @get_notification_by_id Fixture.env username notification_id;
|}.

Definition reorganize : list DataEntry :=
  [mkDataEntry (Some (Some 2)) (Some 1) (Some (Some "tools"));
   mkDataEntry (Some (Some 1)) (Some 3) None].
End Shared.

(** An installation whose [make_keysafe] drops the blanks of a title, and a
    table with two access controls whose titles differ by a blank only. *)
Module Clearance.
(** The blank is character 32. *)
Fixpoint drop_blanks (s : string) : string :=
  match s with
  | EmptyString => EmptyString
  | String c rest =>
      if Ascii.eqb c (Ascii.ascii_of_nat 32) then drop_blanks rest
      else String c (drop_blanks rest)
  end.

Definition env : Collaborators := {|
  make_keysafe := drop_blanks;
  get_listing_by_id := @get_listing_by_id Fixture.env;
  get_profile := @get_profile Fixture.env;
  get_notification_by_id := @get_notification_by_id Fixture.env;
|}.

Definition spaced : AccessControl := mkAccessControl 1 "TOP SECRET".
Definition joined : AccessControl := mkAccessControl 2 "TOPSECRET".

Definition world : AccessWorld := mkAccessWorld ∅ [spaced; joined].
End Clearance.

(** A table in which two access controls have the same title. *)
Module Duplicates.
Definition first : AccessControl := mkAccessControl 1 "SECRET".
Definition second : AccessControl := mkAccessControl 2 "SECRET".

Definition world : AccessWorld := mkAccessWorld ∅ [first; second].
End Duplicates.

(** ** Proof support *)

Create HintDb monad.
#[local] Hint Unfold mbind M_bind bind mret M_ret ret raise try_except getitem
  cache_get cache_set log_query orm_filter orm_get save dismiss_notification : monad.

Ltac unfold_m := repeat (progress autounfold with monad in *).

Lemma world_eta (w : World) :
  mkWorld (cache w) (library w) (dismissed w) (queries w) = w.
Proof. by destruct w. Qed.

Lemma omap_length_le {A B} (f : A → option B) (l : list A) :
  (length (omap f l) ≤ length l)%nat.
Proof.
  induction l as [|a l IH]; [done|].
  change (omap f (a :: l))
    with (match f a with Some y => y :: omap f l | None => omap f l end).
  destruct (f a); simpl length; lia.
Qed.

Lemma select_spec (p : ApplicationLibraryEntry → bool) (w : World)
    (e : ApplicationLibraryEntry) :
  e ∈ select p w ↔ (∃ k, library w !! k = Some e) ∧ p e = true.
Proof.
  unfold select. rewrite list_elem_of_In, filter_In, <- list_elem_of_In, list_elem_of_fmap.
  split.
  - intros [([k e'] & -> & Hin%elem_of_map_to_list) Hp]. split; [by exists k|done].
  - intros [[k Hk] Hp]. split; [|done]. exists (k, e). split; [done|].
    by apply elem_of_map_to_list.
Qed.

Lemma select_nil (p : ApplicationLibraryEntry → bool) (w : World) :
  select p w = [] ↔ ∀ k e, library w !! k = Some e → p e = false.
Proof.
  split.
  - intros Hnil k e Hk. destruct (p e) eqn:Hp; [|done].
    assert (e ∈ select p w) as Hin by (apply select_spec; eauto).
    rewrite Hnil in Hin. by apply elem_of_nil in Hin.
  - intros Hnone. destruct (select p w) as [|e rows] eqn:Hsel; [done|].
    assert (e ∈ select p w) as [[k Hk] Hp]%select_spec by (rewrite Hsel; apply list_elem_of_here).
    specialize (Hnone k e Hk). congruence.
Qed.

(** ** The cached reads *)

Section ReadTheorems.
Context `{Collaborators}.

Lemma read_hit (r : read_op) (w : World) (d : pyobj) :
  cache w !! read_key r = Some d → run_read r w = (Returned (Some d), w).
Proof.
  intros Hhit. destruct r; simpl in *;
    unfold get_all_library_entries, get_library_entry_by_id,
      get_self_application_library; unfold_m; by rewrite Hhit.
Qed.

Lemma read_miss (r : read_op) (w : World) :
  cache w !! read_key r = None →
  run_read r w =
    match read_load r w with
    | Some d =>
        (Returned (Some d),
         mkWorld (<[read_key r := d]> (cache w)) (library w) (dismissed w)
           (queries w ++ [read_query r]))
    | None =>
        (Returned None,
         mkWorld (cache w) (library w) (dismissed w) (queries w ++ [read_query r]))
    end.
Proof.
  intros Hmiss. destruct r; simpl in *;
    unfold get_all_library_entries, get_library_entry_by_id,
      get_self_application_library, visible_row; unfold_m; rewrite Hmiss; simpl;
    try done.
  destruct (library w !! library_entry_id) as [e|]; simpl; [|done].
  by destruct (is_deleted (entry_listing e)).
Qed.

(** C5, as amended.  Each cached read ([get_all_library_entries],
    [get_library_entry_by_id], [get_self_application_library]) returns on a
    hit the cached value as it is and changes nothing.  On a miss it asks
    the table once.  [get_library_entry_by_id] stores the row it finds under
    its key and returns it, and when it finds none (no row, or a row whose
    listing is deleted) it returns [None] and leaves the cache as it was.
    The two filtering reads never meet a not-found condition: they store and
    return the list of the rows that match, and when no row matches that
    list is empty and is stored and returned like any other. *)
Theorem read_through_cache (r : read_op) (w : World) :
  (∀ d, cache w !! read_key r = Some d → run_read r w = (Returned (Some d), w))
  ∧ (cache w !! read_key r = None →
     match r with
     | GetById library_entry_id =>
         match visible_row w library_entry_id with
         | Some e =>
             run_read r w
             = (Returned (Some (Entry e)),
                mkWorld (<[read_key r := Entry e]> (cache w)) (library w) (dismissed w)
                  (queries w ++ [read_query r]))
         | None =>
             (run_read r w).1 = Returned None
             ∧ cache (run_read r w).2 = cache w
             ∧ library (run_read r w).2 = library w
         end
     | GetAll =>
         ∃ rows,
           run_read r w
           = (Returned (Some (QuerySet rows)),
              mkWorld (<[read_key r := QuerySet rows]> (cache w)) (library w) (dismissed w)
                (queries w ++ [read_query r]))
           ∧ (∀ e, e ∈ rows
                   ↔ (∃ k, library w !! k = Some e)
                     ∧ is_deleted (entry_listing e) = false)
           ∧ (rows = []
              ↔ ∀ k e, library w !! k = Some e → is_deleted (entry_listing e) = true)
     | GetSelf username listing_type folder_name =>
         ∃ rows,
           run_read r w
           = (Returned (Some (QuerySet rows)),
              mkWorld (<[read_key r := QuerySet rows]> (cache w)) (library w) (dismissed w)
                (queries w ++ [read_query r]))
           ∧ (∀ e, e ∈ rows
                   ↔ (∃ k, library w !! k = Some e)
                     ∧ library_filter (make_keysafe username) listing_type folder_name e
                       = true)
           ∧ (rows = []
              ↔ ∀ k e, library w !! k = Some e →
                       library_filter (make_keysafe username) listing_type folder_name e
                       = false)
     end).
Proof.
  split; [apply read_hit|].
  intros Hmiss. rewrite (read_miss r w Hmiss).
  destruct r as [|library_entry_id|username listing_type folder_name]; simpl.
  - eexists. split; [reflexivity|]. split.
    + intros e. by rewrite select_spec, negb_true_iff.
    + rewrite select_nil. by setoid_rewrite negb_false_iff.
  - by destruct (visible_row w library_entry_id).
  - eexists. split; [reflexivity|]. split.
    + intros e. by rewrite select_spec.
    + by rewrite select_nil.
Qed.
End ReadTheorems.

Section RepeatedReads.
Context `{Collaborators}.

Lemma read_load_library (r : read_op) (w w' : World) :
  library w' = library w → read_load r w' = read_load r w.
Proof.
  intros Hlib. destruct r; simpl; unfold select, visible_row; by rewrite Hlib.
Qed.

Lemma read_twice (r : read_op) (w : World) :
  (run_read r (run_read r w).2).1 = (run_read r w).1
  ∧ ((run_read r w).1 ≠ Returned None → run_read r (run_read r w).2 = run_read r w)
  ∧ ((run_read r w).1 = Returned None →
     queries (run_read r (run_read r w).2).2 = queries (run_read r w).2 ++ [read_query r]).
Proof.
  destruct (cache w !! read_key r) as [d|] eqn:Hc.
  - rewrite (read_hit r w d Hc); simpl. rewrite (read_hit r w d Hc). done.
  - rewrite (read_miss r w Hc). destruct (read_load r w) as [d|] eqn:Hload; simpl.
    + rewrite (read_hit r _ d) by (simpl; apply lookup_insert_eq). done.
    + rewrite read_miss by done.
      set (w1 := mkWorld _ _ _ _).
      assert (read_load r w1 = None) as -> by (by rewrite <- Hload; apply read_load_library).
      done.
Qed.

Lemma read_self_found (username : string) (listing_type folder_name : option string)
    (w : World) :
  (get_self_application_library username listing_type folder_name w).1 ≠ Returned None.
Proof.
  pose (r := GetSelf username listing_type folder_name).
  change ((run_read r w).1 ≠ Returned None).
  destruct (cache w !! read_key r) as [d|] eqn:Hc.
  - by rewrite (read_hit r w d Hc).
  - by rewrite (read_miss r w Hc).
Qed.

(** C6, as amended.  A read repeated with the same arguments, nothing
    happening in between, returns what the first call returned.  When the
    first call returned a value, the second is served from the cache: it
    issues no read of the table and leaves the world as the first call left
    it; [get_self_application_library] always returns a value.  When
    [get_library_entry_by_id] found no row, nothing was cached and the
    second call reads the table again. *)
Theorem repeated_read_served_from_cache_when_found (r : read_op) (w : World) :
  let first := run_read r w in
  let second := run_read r first.2 in
  second.1 = first.1
  ∧ (first.1 ≠ Returned None → second = first ∧ queries second.2 = queries first.2)
  ∧ (first.1 = Returned None → queries second.2 = queries first.2 ++ [read_query r])
  ∧ match r with
    | GetById _ => True
    | GetAll | GetSelf _ _ _ => first.1 ≠ Returned None
    end.
Proof.
  simpl. destruct (read_twice r w) as (Hsame & Hhit & Hmiss).
  split; [done|]. split; [|split; [done|]].
  - intros Hfound. by rewrite (Hhit Hfound).
  - destruct r; [|done|apply read_self_found].
    simpl. destruct (cache w !! read_key GetAll) as [d|] eqn:Hc.
    + change get_all_library_entries with (run_read GetAll). by rewrite (read_hit _ w d Hc).
    + change get_all_library_entries with (run_read GetAll). by rewrite (read_miss _ w Hc).
Qed.

Lemma read_self_other_folder (username : string) (listing_type f1 f2 : option string)
    (w : World) :
  get_self_application_library username listing_type f2
    (get_self_application_library username listing_type f1 w).2
  = get_self_application_library username listing_type f1 w.
Proof.
  pose (r1 := GetSelf username listing_type f1).
  pose (r2 := GetSelf username listing_type f2).
  change (run_read r2 (run_read r1 w).2 = run_read r1 w).
  destruct (cache w !! read_key r1) as [d|] eqn:Hc.
  - rewrite (read_hit r1 w d Hc); simpl. by apply (read_hit r2).
  - rewrite (read_miss r1 w Hc).
    assert (∃ d, read_load r1 w = Some d) as [d ->] by (eexists; reflexivity).
    apply (read_hit r2). apply (lookup_insert_eq (cache w) (read_key r1)).
Qed.
End RepeatedReads.

(** C5, as the claim states it, fails for the two filtering reads.  With an
    empty table and a cold cache, [get_all_library_entries] finds nothing,
    and yet it returns an empty queryset, not [None], and stores it under
    ['library_entries']; so does [get_self_application_library] for bob, who
    owns no row of the fixture. *)
Lemma empty_result_is_returned_and_cached :
  let all := get_all_library_entries Fixture.empty_world in
  let self := @get_self_application_library Fixture.env "bob" None None Fixture.world in
  (library Fixture.empty_world = ∅
   ∧ cache Fixture.empty_world !! "library_entries" = None
   ∧ all.1 = Returned (Some (QuerySet []))
   ∧ cache all.2 !! "library_entries" = Some (QuerySet [])
   ∧ ¬ (all.1 = Returned None ∧ cache all.2 = cache Fixture.empty_world))
  ∧ (cache Fixture.world !! "app_library(None):bob" = None
     ∧ self.1 = Returned (Some (QuerySet []))
     ∧ cache self.2 !! "app_library(None):bob" = Some (QuerySet [])
     ∧ ¬ (self.1 = Returned None ∧ cache self.2 = cache Fixture.world)).
Proof.
  vm_compute. repeat split; try reflexivity; intros [Hnone _]; discriminate Hnone.
Qed.

(** C6, as the claim states it, fails: entry 7 does not exist, the first call
    caches nothing, and the second call reads the table a second time. *)
Lemma repeated_read_of_missing_entry_queries_again :
  let first := get_library_entry_by_id 7 Fixture.world in
  let second := get_library_entry_by_id 7 first.2 in
  ¬ (second.1 = first.1 ∧ queries second.2 = queries first.2).
Proof. vm_compute. intros [_ Hq]. discriminate Hq. Qed.

(** C9.  The key under which [get_self_application_library] caches is built
    from the listing type and the sanitized username only.  So once a call
    has filled the cache, a call for the same user and listing type with any
    other folder returns that cached result and leaves the world untouched;
    in the fixture, asking for folder "home" after folder "work" returns the
    rows of "work", not the rows a cold cache gives for "home". *)
Theorem folder_name_not_in_cache_key :
  (∀ (env : Collaborators) username username' listing_type f1 f2,
     make_keysafe username = make_keysafe username' →
     read_key (GetSelf username listing_type f1) = read_key (GetSelf username' listing_type f2))
  ∧ (∀ (env : Collaborators) username listing_type f1 f2 w,
       get_self_application_library username listing_type f2
         (get_self_application_library username listing_type f1 w).2
       = get_self_application_library username listing_type f1 w)
  ∧ (let first :=
       @get_self_application_library Fixture.env "alice" None (Some "work") Fixture.world in
     let second :=
       @get_self_application_library Fixture.env "alice" None (Some "home") first.2 in
     let cold :=
       @get_self_application_library Fixture.env "alice" None (Some "home") Fixture.world in
     first.1 = Returned (Some (QuerySet [Fixture.row2]))
     ∧ second.1 = Returned (Some (QuerySet [Fixture.row2]))
     ∧ cold.1 = Returned (Some (QuerySet [Fixture.row3]))).
Proof.
  split; [|split].
  - intros env u u' lt f1 f2 Hu. simpl. by rewrite Hu.
  - intros env u lt f1 f2 w. apply read_self_other_folder.
  - vm_compute. done.
Qed.

(** ** Creating one entry *)

Lemma fresh_id_above (t : gmap Z ApplicationLibraryEntry) (k : Z) :
  is_Some (t !! k) → k < fresh_id t.
Proof.
  unfold fresh_id.
  cut (∀ k, is_Some (t !! k) → k ≤ map_fold (λ k _ acc, Z.max k acc) 0 t).
  { intros Hle Hk. specialize (Hle k Hk). lia. }
  clear k.
  apply (map_fold_weak_ind (λ r m, ∀ k, is_Some (m !! k) → k ≤ r)).
  - intros k [e He]. by rewrite lookup_empty in He.
  - intros i x m r _ IH k Hk. destruct (decide (i = k)) as [->|Hne]; [lia|].
    rewrite lookup_insert_ne in Hk by done. specialize (IH k Hk). lia.
Qed.

Lemma fresh_id_fresh (t : gmap Z ApplicationLibraryEntry) : t !! fresh_id t = None.
Proof.
  destruct (t !! fresh_id t) as [e|] eqn:Hk; [|done].
  assert (fresh_id t < fresh_id t) by (apply fresh_id_above; eauto). lia.
Qed.

Section CreateTheorems.
Context `{Collaborators}.

Lemma create_not_found (username : string) (listing_id : Z) (folder_name : option string)
    (w : World) :
  get_listing_by_id username (Some listing_id) = None ∨ get_profile username = None →
  create_self_user_library_entry username listing_id folder_name w
  = (Raised (mkExn Exception "Listing or user not found"), w).
Proof.
  unfold create_self_user_library_entry.
  intros [Hl|Hp].
  - by rewrite Hl.
  - rewrite Hp. by destruct (get_listing_by_id username (Some listing_id)).
Qed.

Lemma create_found (username : string) (listing_id : Z) (folder_name : option string)
    (w : World) (listing : Listing) (owner : Profile) :
  get_listing_by_id username (Some listing_id) = Some listing →
  get_profile username = Some owner →
  create_self_user_library_entry username listing_id folder_name w
  = (Returned (mkEntry (Some (fresh_id (library w))) listing owner folder_name),
     mkWorld (cache w)
       (<[fresh_id (library w) :=
            mkEntry (Some (fresh_id (library w))) listing owner folder_name]> (library w))
       (dismissed w) (queries w)).
Proof.
  unfold create_self_user_library_entry. intros -> ->. reflexivity.
Qed.

(** C7, as amended.  When the listing does not resolve for the user or the
    profile does not resolve, [create_self_user_library_entry] raises
    [Exception('Listing or user not found')], the same exception for
    either side, and changes nothing.  When both resolve it inserts one new
    row, under a key the table did not use, holding the listing, the owner
    and the folder, and returns that row; the cache is not touched. *)
Theorem create_raises_one_exception_or_persists (username : string) (listing_id : Z)
    (folder_name : option string) (w : World) :
  (get_listing_by_id username (Some listing_id) = None ∨ get_profile username = None →
   create_self_user_library_entry username listing_id folder_name w
   = (Raised (mkExn Exception "Listing or user not found"), w))
  ∧ (∀ listing owner,
       get_listing_by_id username (Some listing_id) = Some listing →
       get_profile username = Some owner →
       ∃ k entry w',
         create_self_user_library_entry username listing_id folder_name w
         = (Returned entry, w')
         ∧ entry = mkEntry (Some k) listing owner folder_name
         ∧ library w !! k = None
         ∧ library w' = <[k := entry]> (library w)
         ∧ cache w' = cache w
         ∧ dismissed w' = dismissed w).
Proof.
  split; [apply create_not_found|].
  intros listing owner Hl Hp.
  eexists (fresh_id (library w)), _, _.
  split; [by apply create_found|].
  split; [done|]. split; [apply fresh_id_fresh|done].
Qed.
End CreateTheorems.

(** C7, as the claim states it, fails: no reading of the raised exception
    tells a missing listing from a missing profile.  For alice listing 99
    does not resolve; for guest listing 1 resolves and the profile does not;
    both calls raise the same exception. *)
Lemma create_error_does_not_name_the_missing_side :
  ¬ ∃ side_of : exn → missing_side,
      (∀ e w', @create_self_user_library_entry Fixture.env "alice" 99 None Fixture.world
               = (Raised e, w') → side_of e = MissingListing)
      ∧ (∀ e w', @create_self_user_library_entry Fixture.env "guest" 1 None Fixture.world
                 = (Raised e, w') → side_of e = MissingProfile).
Proof.
  intros (side_of & Hl & Hp).
  specialize (Hl (mkExn Exception "Listing or user not found") Fixture.world eq_refl).
  specialize (Hp (mkExn Exception "Listing or user not found") Fixture.world eq_refl).
  congruence.
Qed.

(** ** Importing the bookmarks of a peer notification *)

Section ImportTheorems.
Context `{Collaborators}.

Lemma resolved_Some (username : string) (folder_name : option string) (listing_id : Z)
    (fields : Listing * Profile * option string) :
  resolved username folder_name listing_id = Some fields →
  get_listing_by_id username (Some listing_id) = Some fields.1.1
  ∧ get_profile username = Some fields.1.2
  ∧ fields.2 = folder_name.
Proof.
  unfold resolved.
  destruct (get_listing_by_id username (Some listing_id)); simpl; [|done].
  destruct (get_profile username); simpl; [|done].
  by intros [= <-].
Qed.

Lemma resolved_None (username : string) (folder_name : option string) (listing_id : Z) :
  resolved username folder_name listing_id = None →
  get_listing_by_id username (Some listing_id) = None ∨ get_profile username = None.
Proof.
  unfold resolved.
  destruct (get_listing_by_id username (Some listing_id)); simpl; [|by left].
  destruct (get_profile username); simpl; [done|by right].
Qed.

(** The loop of the import: every id is tried in order, an id whose
    creation raises adds nothing, and the only effect is the new rows. *)
Lemma import_loop_run (username : string) (folder_name : option string) (ids : list Z) :
  ∀ (acc : list ApplicationLibraryEntry) (w : World),
  ∃ new w',
    import_loop username folder_name ids acc w = (Returned (acc ++ new), w')
    ∧ entry_fields <$> new = omap (resolved username folder_name) ids
    ∧ cache w' = cache w ∧ dismissed w' = dismissed w ∧ queries w' = queries w
    ∧ (∀ k e, library w' !! k = Some e
              ↔ library w !! k = Some e ∨ (e ∈ new ∧ entry_pk e = Some k))
    ∧ (∀ e, e ∈ new → ∃ k, entry_pk e = Some k ∧ library w !! k = None).
Proof.
  induction ids as [|listing_id rest IH]; intros acc w.
  - exists [], w. simpl. rewrite app_nil_r. repeat split; try done.
    + by left.
    + intros [?|[Hin _]]; [done|]. by apply elem_of_nil in Hin.
    + intros e Hin. by apply elem_of_nil in Hin.
  - change (omap (resolved username folder_name) (listing_id :: rest))
      with (match resolved username folder_name listing_id with
            | Some y => y :: omap (resolved username folder_name) rest
            | None => omap (resolved username folder_name) rest
            end).
    simpl import_loop. unfold mbind at 1, M_bind at 1, bind at 1, try_except.
    unfold mbind at 1, M_bind at 1, bind at 1.
    destruct (resolved username folder_name listing_id) as [[[listing owner] folder]|] eqn:Hres.
    + apply resolved_Some in Hres as (Hl & Hp & Hf). simpl in Hl, Hp, Hf. subst folder.
      rewrite (create_found _ _ _ _ listing owner Hl Hp).
      set (k1 := fresh_id (library w)).
      set (e1 := mkEntry (Some k1) listing owner folder_name).
      set (w1 := mkWorld _ _ _ _).
      destruct (IH (acc ++ [e1]) w1) as (new & w' & Hrun & Hfields & Hc & Hd & Hq & Hlib & Hnew).
      exists (e1 :: new), w'.
      assert (library w !! k1 = None) as Hfresh by apply fresh_id_fresh.
      split. { unfold mret, M_ret, ret. rewrite Hrun. by rewrite <- app_assoc. }
      split. { rewrite fmap_cons. f_equal. exact Hfields. }
      split; [done|]. split; [done|]. split; [done|]. split.
      * intros k e. rewrite Hlib. subst w1. simpl.
        rewrite lookup_insert_Some, elem_of_cons. split.
        -- intros [[[Hk He]|[Hne Hold]]|[Hin Hpk]].
           ++ right. subst k e. split; [by left|done].
           ++ by left.
           ++ right. split; [by right|done].
        -- intros [Hold|[[->|Hin] Hpk]].
           ++ left. right. split; [|done]. intros ->. congruence.
           ++ left. left. simpl in Hpk. by inversion Hpk.
           ++ by right.
      * intros e [->|Hin]%elem_of_cons; [by exists k1|].
        destruct (Hnew e Hin) as (k & Hpk & Hnone). exists k. split; [done|].
        subst w1. simpl in Hnone. by apply lookup_insert_None in Hnone as [? _].
    + apply resolved_None in Hres.
      rewrite (create_not_found _ _ _ _ Hres). simpl isinstance. cbv iota.
      destruct (IH acc w) as (new & w' & Hrun & Hrest). exists new, w'.
      split; [exact Hrun|exact Hrest].
Qed.
Lemma import_valid_run (current_username : string) (notification : Z) (w : World)
    (n : Notification) (ids : list Z) :
  get_notification_by_id current_username notification = Some n →
  import_valid current_username n ids →
  ∃ imported w',
    import_bookmarks current_username notification w = (Returned (None, Some imported), w')
    ∧ entry_fields <$> imported
      = omap (resolved current_username (peer_folder_name (peer n))) ids
    ∧ dismissed w' = dismissed w ++ [(notification_id n, current_username)]
    ∧ cache w' = cache w
    ∧ queries w' = queries w
    ∧ (∀ k e, library w' !! k = Some e
              ↔ library w !! k = Some e ∨ (e ∈ imported ∧ entry_pk e = Some k))
    ∧ (∀ e, e ∈ imported → ∃ k, entry_pk e = Some k ∧ library w !! k = None).
Proof.
  intros Hn (Hty & Hu & Hf & Hids & Hne).
  unfold import_bookmarks. rewrite Hn, Hty, Hu, Hf, Hids. simpl.
  rewrite bool_decide_eq_true_2 by done. simpl.
  destruct ids as [|listing_id rest]; [done|]. cbv [nonempty negb].
  destruct (import_loop_run current_username (peer_folder_name (peer n))
              (listing_id :: rest) [] w)
    as (imported & w1 & Hrun & Hfields & Hc & Hd & Hq & Hlib & Hnew).
  exists imported, (mkWorld (cache w1) (library w1)
                      (dismissed w1 ++ [(notification_id n, current_username)]) (queries w1)).
  split.
  { unfold mbind at 1, M_bind at 1, bind at 1. rewrite Hrun. reflexivity. }
  simpl. rewrite Hd. done.
Qed.

Lemma import_invalid_run (current_username : string) (notification : Z) (w : World) :
  import_invalid current_username notification →
  ∃ errors,
    import_bookmarks current_username notification w = (Returned (Some errors, None), w)
    ∧ errors ≠ []
    ∧ match get_notification_by_id current_username notification with
      | None => errors = ["Could not find Notification Entry"]
      | Some n =>
          if decide (notification_type n = "PEER.BOOKMARK") then
            ("Target username does not match current user's username" ∈ errors
             ↔ peer_user_username (peer n) ≠ Some current_username)
            ∧ ("Could not find folder_name entry" ∈ errors
               ↔ truthy (peer_folder_name (peer n)) = false)
            ∧ ("Could not find peer bookmark list entry" ∈ errors
               ↔ default [] (peer_bookmark_listing_ids (peer n)) = [])
          else
            errors = ["Notification Entry should be 'PEER.BOOKMARK' but it is '"
                        +:+ notification_type n +:+ "'"]
      end.
Proof.
  unfold import_invalid, import_bookmarks.
  destruct (get_notification_by_id current_username notification) as [n|]; [|by eexists].
  destruct (decide (notification_type n = "PEER.BOOKMARK")) as [Hty|Hty].
  - rewrite Hty. simpl.
    intros [?|Hbad]; [done|].
    destruct (decide (peer_user_username (peer n) = Some current_username)) as [Hu|Hu];
      [rewrite bool_decide_eq_true_2 by done|rewrite bool_decide_eq_false_2 by done];
      (destruct (truthy (peer_folder_name (peer n))) eqn:Hf);
      (destruct (default [] (peer_bookmark_listing_ids (peer n))) as [|i l] eqn:Hl);
      simpl; try (destruct Hbad as [?|[?|?]]; done); eexists;
      (split; [reflexivity|]); (split; [done|]);
      rewrite ?elem_of_cons, ?elem_of_nil; intuition (discriminate || congruence).
  - intros _. apply String.eqb_neq in Hty. rewrite Hty. simpl. by eexists.
Qed.

Lemma import_valid_or_invalid (current_username : string) (notification : Z) :
  import_invalid current_username notification
  ∨ ∃ n ids, get_notification_by_id current_username notification = Some n
             ∧ import_valid current_username n ids.
Proof.
  unfold import_invalid, import_valid.
  destruct (get_notification_by_id current_username notification) as [n|]; [|by left].
  destruct (decide (notification_type n = "PEER.BOOKMARK")); [|by left; left].
  destruct (decide (peer_user_username (peer n) = Some current_username));
    [|by left; right; left].
  destruct (truthy (peer_folder_name (peer n))) eqn:Hf; [|by left; right; right; left].
  destruct (default [] (peer_bookmark_listing_ids (peer n))) as [|i l] eqn:Hl;
    [by left; right; right; right|].
  right. exists n, (i :: l). by rewrite Hl.
Qed.

(** C2.  When the notification passes validation, [import_bookmarks] tries
    every listing id of the payload in order; an id whose creation raises is
    left out and the import goes on.  It returns [(None, imported)] where
    [imported] holds, in order, one new entry for each id that resolved (so
    no more entries than ids), each stored under a key the table did not
    use; the table changes by these rows only; and the notification is
    dismissed once, after the loop. *)
Theorem import_is_best_effort_per_listing (current_username : string) (notification : Z)
    (w : World) (n : Notification) (ids : list Z) :
  get_notification_by_id current_username notification = Some n →
  import_valid current_username n ids →
  ∃ imported w',
    import_bookmarks current_username notification w = (Returned (None, Some imported), w')
    ∧ entry_fields <$> imported
      = omap (resolved current_username (peer_folder_name (peer n))) ids
    ∧ (length imported ≤ length ids)%nat
    ∧ dismissed w' = dismissed w ++ [(notification_id n, current_username)]
    ∧ (∀ k e, library w' !! k = Some e
              ↔ library w !! k = Some e ∨ (e ∈ imported ∧ entry_pk e = Some k))
    ∧ (∀ e, e ∈ imported → ∃ k, entry_pk e = Some k ∧ library w !! k = None).
Proof.
  intros Hn Hvalid.
  destruct (import_valid_run current_username notification w n ids Hn Hvalid)
    as (imported & w' & Hrun & Hfields & Hd & _ & _ & Hlib & Hnew).
  exists imported, w'. repeat (split; [done|]). split; [|done].
  rewrite <- (length_fmap entry_fields), Hfields. apply omap_length_le.
Qed.

(** C3.  When the notification is not found, is not a ['PEER.BOOKMARK']
    notification, is addressed to another user, names no folder or lists
    no bookmark, [import_bookmarks] returns a non-empty list of errors and
    no entries, and leaves the world as it was: nothing is created and the
    notification is not dismissed.  A notification that is not found and a
    notification of another type each give one message, the latter quoting
    the type found; the three checks on the payload each add their message
    exactly when they fail. *)
Theorem import_rejects_invalid_notification (current_username : string) (notification : Z)
    (w : World) :
  import_invalid current_username notification →
  ∃ errors,
    import_bookmarks current_username notification w = (Returned (Some errors, None), w)
    ∧ errors ≠ []
    ∧ match get_notification_by_id current_username notification with
      | None => errors = ["Could not find Notification Entry"]
      | Some n =>
          if decide (notification_type n = "PEER.BOOKMARK") then
            ("Target username does not match current user's username" ∈ errors
             ↔ peer_user_username (peer n) ≠ Some current_username)
            ∧ ("Could not find folder_name entry" ∈ errors
               ↔ truthy (peer_folder_name (peer n)) = false)
            ∧ ("Could not find peer bookmark list entry" ∈ errors
               ↔ default [] (peer_bookmark_listing_ids (peer n)) = [])
          else
            errors = ["Notification Entry should be 'PEER.BOOKMARK' but it is '"
                        +:+ notification_type n +:+ "'"]
      end.
Proof. apply import_invalid_run. Qed.

(** C4, as amended.  Every call of [import_bookmarks] returns either a
    non-empty list of errors with no entries, or no errors with a list of
    entries; that list may be empty. *)
Theorem import_returns_errors_or_entries (current_username : string) (notification : Z)
    (w : World) :
  ∃ w',
    (∃ errors, errors ≠ []
               ∧ import_bookmarks current_username notification w
                 = (Returned (Some errors, None), w'))
    ∨ (∃ imported, import_bookmarks current_username notification w
                   = (Returned (None, Some imported), w')).
Proof.
  destruct (import_valid_or_invalid current_username notification)
    as [Hbad|(n & ids & Hn & Hvalid)].
  - destruct (import_invalid_run current_username notification w Hbad)
      as (errors & Hrun & Hne & _).
    exists w. left. by exists errors.
  - destruct (import_valid_run current_username notification w n ids Hn Hvalid)
      as (imported & w' & Hrun & _).
    exists w'. right. by exists imported.
Qed.
End ImportTheorems.

(** C4, as the claim states it, fails: notification 13 passes validation and
    its only listing id does not resolve, so the call returns no errors and
    an empty list of entries. *)
Lemma import_of_unresolvable_ids_returns_nothing :
  let result := (@import_bookmarks Fixture.env "alice" 13 Fixture.world).1 in
  result = Returned (None, Some [])
  ∧ ¬ ((∃ errors, errors ≠ [] ∧ result = Returned (Some errors, None))
       ∨ (∃ imported, imported ≠ [] ∧ result = Returned (None, Some imported))).
Proof.
  split; [reflexivity|].
  intros [(errors & _ & Hr)|(imported & Hne & Hr)]; [discriminate Hr|].
  injection Hr as <-. done.
Qed.

(** ** Reorganizing the library in one batch *)

Section BatchTheorems.
Context `{Collaborators}.

Lemma validate_entry_run (username : string) (errors : list string)
    (validated_data : list NewDataEntry) (data_entry : DataEntry) :
  validate_entry username (errors, validated_data) data_entry
  = (errors ++ entry_errors username data_entry,
     validated_data ++ option_list (accepted username data_entry)).
Proof.
  unfold validate_entry, entry_errors, accepted.
  destruct data_entry as [[listing_id|] [library_entry_id|] [folder|]]; simpl;
    try destruct (get_listing_by_id username listing_id); simpl;
    rewrite ?app_nil_r, <- ?app_assoc; reflexivity.
Qed.

Lemma validation_run (username : string) (data : list DataEntry) :
  ∀ errors validated_data,
    foldl (validate_entry username) (errors, validated_data) data
    = (errors ++ flat_map (entry_errors username) data,
       validated_data ++ omap (accepted username) data).
Proof.
  induction data as [|data_entry data IH]; intros errors validated_data.
  - simpl. by rewrite !app_nil_r.
  - change (foldl (validate_entry username) (errors, validated_data) (data_entry :: data))
      with (foldl (validate_entry username)
              (validate_entry username (errors, validated_data) data_entry) data).
    rewrite validate_entry_run, IH. simpl flat_map.
    rewrite <- !app_assoc. f_equal. f_equal.
    change (omap (accepted username) (data_entry :: data))
      with (match accepted username data_entry with
            | Some y => y :: omap (accepted username) data
            | None => omap (accepted username) data
            end).
    by destruct (accepted username data_entry).
Qed.

Lemma entry_errors_invalid (username : string) (data_entry : DataEntry) :
  entry_invalid username data_entry ↔ entry_errors username data_entry ≠ [].
Proof.
  unfold entry_invalid, entry_errors.
  destruct (de_listing data_entry) as [listing_id|]; [|by intuition].
  destruct (get_listing_by_id username listing_id) eqn:Hl.
  - destruct (de_id data_entry); simpl; [|by intuition].
    split; [|done]. intros [?|[(lid & [= <-] & ?)|?]]; congruence.
  - split; [done|]. intros _. right. left. by exists listing_id.
Qed.

Lemma batch_errors_nonempty (username : string) (data : list DataEntry) :
  Exists (entry_invalid username) data → flat_map (entry_errors username) data ≠ [].
Proof.
  induction 1 as [data_entry data Hbad|data_entry data _ IH]; simpl.
  - apply entry_errors_invalid in Hbad.
    destruct (entry_errors username data_entry); [done|discriminate].
  - intros [_ Hnil]%app_eq_nil. by apply IH.
Qed.

(** C1.  When some element of the batch fails validation (no ['listing'], a
    listing id that does not resolve, or no ['id']),
    [batch_update_user_library_entry] returns the messages of every element
    of the batch, in order, that list is not empty, and the world is left as
    it was: no row of any element is written, valid or not. *)
Theorem batch_is_rejected_as_a_whole (username : string) (data : list DataEntry)
    (w : World) :
  Exists (entry_invalid username) data →
  batch_update_user_library_entry username data w
  = (Returned (Some (flat_map (entry_errors username) data), None), w)
  ∧ flat_map (entry_errors username) data ≠ [].
Proof.
  intros Hbad. apply batch_errors_nonempty in Hbad. split; [|done].
  unfold batch_update_user_library_entry. rewrite validation_run. simpl.
  by destruct (flat_map (entry_errors username) data).
Qed.
Lemma accepted_valid (username : string) (data_entry : DataEntry) :
  entry_errors username data_entry = [] →
  ∃ listing_id listing library_entry_id,
    de_listing data_entry = Some listing_id
    ∧ get_listing_by_id username listing_id = Some listing
    ∧ de_id data_entry = Some library_entry_id
    ∧ accepted username data_entry
      = Some (mkNewDataEntry (Some listing) (Some library_entry_id)
                (Some (default None (de_folder data_entry)))).
Proof.
  unfold entry_errors, accepted.
  destruct (de_listing data_entry) as [listing_id|]; [|done].
  destruct (get_listing_by_id username listing_id) as [listing|] eqn:Hl; [|done].
  destruct (de_id data_entry) as [library_entry_id|]; [|done].
  intros _. exists listing_id, listing, library_entry_id. by rewrite Hl.
Qed.

(** One turn of the loop that applies a validated batch. *)
Lemma apply_loop_cons (listing : Listing) (library_entry_id : Z) (folder : option string)
    (rest : list NewDataEntry) (w : World) :
  apply_loop
    (mkNewDataEntry (Some listing) (Some library_entry_id) (Some folder) :: rest) w
  = match get_library_entry_by_id library_entry_id w with
    | (Returned (Some (Entry e)), w1) =>
        let k := default (fresh_id (library w1)) (entry_pk e) in
        apply_loop rest
          (mkWorld (cache w1)
             (<[k := mkEntry (Some k) listing (entry_owner e) folder]> (library w1))
             (dismissed w1) (queries w1))
    | (Returned (Some (QuerySet _)), w1) =>
        (Raised (mkExn AttributeError "'QuerySet' object has no attribute 'save'"), w1)
    | (Returned None, w1) =>
        (Raised (mkExn AttributeError "'NoneType' object has no attribute 'folder'"), w1)
    | (Raised e, w1) => (Raised e, w1)
    end.
Proof.
  simpl apply_loop. unfold mbind at 1, M_bind at 1, bind at 1. simpl getitem.
  unfold mret at 1, M_ret at 1, ret at 1.
  unfold mbind at 1, M_bind at 1, bind at 1.
  destruct (get_library_entry_by_id library_entry_id w) as [[[[e|rows]|]|e] w1];
    reflexivity.
Qed.

Lemma library_key_inj (i j : Z) : read_key (GetById i) = read_key (GetById j) → i = j.
Proof.
  simpl. intros Hkey. apply (inj (String.append "library:")) in Hkey.
  by apply (inj pretty) in Hkey.
Qed.

(** C10.  Validation asks of an element only that it has an ['id']; whether
    a row has that id is found out in the apply loop, one element at a time.
    So take any batch that passes validation, whose first element names an
    existing row [i1] and whose second names an id [i2] with no row (neither
    cached): the call raises [AttributeError] at the second element, the row
    of the first element stays written with its new listing and folder, and
    no other row, those of the later elements included, is touched. *)
Theorem batch_apply_is_not_atomic (username : string) (first bad : DataEntry)
    (rest : list DataEntry) (w : World) (i1 i2 : Z) (row : ApplicationLibraryEntry) :
  flat_map (entry_errors username) (first :: bad :: rest) = [] →
  de_id first = Some i1 →
  de_id bad = Some i2 →
  i1 ≠ i2 →
  cache w !! read_key (GetById i1) = None →
  library w !! i1 = Some row →
  is_deleted (entry_listing row) = false →
  entry_pk row = Some i1 →
  cache w !! read_key (GetById i2) = None →
  visible_row w i2 = None →
  ∃ e w' listing_id listing,
    batch_update_user_library_entry username (first :: bad :: rest) w = (Raised e, w')
    ∧ exn_cls e = AttributeError
    ∧ de_listing first = Some listing_id
    ∧ get_listing_by_id username listing_id = Some listing
    ∧ library w' !! i1
      = Some (mkEntry (Some i1) listing (entry_owner row) (default None (de_folder first)))
    ∧ ∀ k, k ≠ i1 → library w' !! k = library w !! k.
Proof.
  intros Hpass Hid1 Hid2 Hne Hc1 Hrow Hlive Hpk Hc2 Hgone.
  pose proof Hpass as Herr. simpl in Herr.
  apply app_eq_nil in Herr as [Herr1 [Herr2 _]%app_eq_nil].
  destruct (accepted_valid username first Herr1) as (lid1 & l1 & j1 & Hl1 & Hg1 & Hj1 & Ha1).
  destruct (accepted_valid username bad Herr2) as (lid2 & l2 & j2 & Hl2 & Hg2 & Hj2 & Ha2).
  assert (j1 = i1) as -> by congruence. assert (j2 = i2) as -> by congruence.
  unfold batch_update_user_library_entry. rewrite validation_run, Hpass.
  rewrite !app_nil_l. cbn [nonempty].
  change (omap (accepted username) (first :: bad :: rest))
    with (match accepted username first with
          | Some y =>
              y :: match accepted username bad with
                   | Some z => z :: omap (accepted username) rest
                   | None => omap (accepted username) rest
                   end
          | None =>
              match accepted username bad with
              | Some z => z :: omap (accepted username) rest
              | None => omap (accepted username) rest
              end
          end).
  rewrite Ha1, Ha2.
  unfold mbind at 1, M_bind at 1, bind at 1. cbv beta.
  rewrite apply_loop_cons.
  change (get_library_entry_by_id i1 w) with (run_read (GetById i1) w).
  rewrite (read_miss (GetById i1) w Hc1).
  assert (read_load (GetById i1) w = Some (Entry row)) as ->.
  { simpl. unfold visible_row. by rewrite Hrow, Hlive. }
  cbv zeta. rewrite Hpk. simpl default at 1 2. simpl library at 1. simpl cache at 1.
  set (row' := mkEntry (Some i1) l1 (entry_owner row) (default None (de_folder first))).
  set (w2 := mkWorld _ _ _ _).
  rewrite apply_loop_cons.
  change (get_library_entry_by_id i2 w2) with (run_read (GetById i2) w2).
  assert (cache w2 !! read_key (GetById i2) = None) as Hc2'.
  { subst w2. cbn [cache]. rewrite lookup_insert_ne; [done|].
    intros Hkey. by apply library_key_inj in Hkey. }
  rewrite (read_miss (GetById i2) w2 Hc2').
  assert (read_load (GetById i2) w2 = None) as ->.
  { subst w2. simpl. unfold visible_row in *. cbn [library].
    rewrite lookup_insert_ne by done.
    destruct (library w !! i2) as [e2|]; [|done].
    by destruct (is_deleted (entry_listing e2)). }
  eexists _, _, lid1, l1. split; [reflexivity|].
  split; [done|]. split; [done|]. split; [done|]. subst w2. cbn [library snd]. split.
  - apply lookup_insert_eq.
  - intros k Hk. by rewrite lookup_insert_ne.
Qed.
End BatchTheorems.

(** ** Writes leave the cached values alone *)

Section CacheFrame.
Context `{Collaborators}.

Lemma preserves_cache_ret {A} (a : A) : preserves_cache (mret a : M A).
Proof. by intros w. Qed.

Lemma preserves_cache_raise {A} (cls : exn_class) (msg : string) :
  preserves_cache (raise cls msg : M A).
Proof. by intros w. Qed.

Lemma preserves_cache_bind {A B} (m : M A) (k : A → M B) :
  preserves_cache m → (∀ a, preserves_cache (k a)) → preserves_cache (m ≫= k).
Proof.
  intros Hm Hk w. unfold mbind, M_bind, bind.
  specialize (Hm w). destruct (m w) as [[a|e] w1]; simpl in *; [|done].
  etrans; [exact Hm|apply Hk].
Qed.

Lemma preserves_cache_getitem {A} (v : option A) (key : string) :
  preserves_cache (getitem v key).
Proof. destruct v; [apply preserves_cache_ret|apply preserves_cache_raise]. Qed.

Lemma preserves_cache_read (r : read_op) : preserves_cache (run_read r).
Proof.
  intros w. destruct (cache w !! read_key r) as [d|] eqn:Hc.
  - by rewrite (read_hit r w d Hc).
  - rewrite (read_miss r w Hc). destruct (read_load r w); simpl; [|done].
    by apply insert_subseteq.
Qed.

Lemma preserves_cache_set_folder (instance : option pyobj) (folder : option string) :
  preserves_cache (set_folder instance folder).
Proof. by destruct instance as [[e|rows]|]; intros w. Qed.

Lemma preserves_cache_set_listing (instance : option pyobj) (listing : Listing) :
  preserves_cache (set_listing instance listing).
Proof. by destruct instance as [[e|rows]|]; intros w. Qed.

Lemma preserves_cache_call_save (instance : option pyobj) :
  preserves_cache (call_save instance).
Proof. by destruct instance as [[e|rows]|]; intros w. Qed.

Lemma preserves_cache_apply_loop (validated_data : list NewDataEntry) :
  preserves_cache (apply_loop validated_data).
Proof.
  induction validated_data as [|data_entry rest IH]; [apply preserves_cache_ret|].
  simpl apply_loop.
  apply preserves_cache_bind; [apply preserves_cache_getitem|intros library_entry_id].
  apply preserves_cache_bind;
    [apply (preserves_cache_read (GetById library_entry_id))|intros instance].
  apply preserves_cache_bind; [apply preserves_cache_getitem|intros folder].
  apply preserves_cache_bind; [apply preserves_cache_set_folder|intros instance'].
  apply preserves_cache_bind; [apply preserves_cache_getitem|intros listing].
  apply preserves_cache_bind; [apply preserves_cache_set_listing|intros instance''].
  apply preserves_cache_bind; [apply preserves_cache_call_save|intros _].
  exact IH.
Qed.

Lemma create_keeps_cache (username : string) (listing_id : Z) (folder_name : option string)
    (w : World) :
  cache (create_self_user_library_entry username listing_id folder_name w).2 = cache w.
Proof.
  destruct (get_listing_by_id username (Some listing_id)) as [listing|] eqn:Hl;
    [destruct (get_profile username) as [owner|] eqn:Hp|].
  - by rewrite (create_found _ _ _ _ listing owner Hl Hp).
  - by rewrite (create_not_found _ _ _ _ (or_intror Hp)).
  - by rewrite (create_not_found _ _ _ _ (or_introl Hl)).
Qed.

Lemma import_keeps_cache (current_username : string) (notification : Z) (w : World) :
  cache (import_bookmarks current_username notification w).2 = cache w.
Proof.
  destruct (import_valid_or_invalid current_username notification)
    as [Hbad|(n & ids & Hn & Hvalid)].
  - destruct (import_invalid_run current_username notification w Hbad) as (errors & -> & _).
    done.
  - destruct (import_valid_run current_username notification w n ids Hn Hvalid)
      as (imported & w' & -> & _ & _ & Hc & _).
    done.
Qed.

Lemma batch_preserves_cache (username : string) (data : list DataEntry) :
  preserves_cache (batch_update_user_library_entry username data).
Proof.
  unfold batch_update_user_library_entry. rewrite validation_run.
  destruct (nonempty _); [apply preserves_cache_ret|].
  apply preserves_cache_bind; [apply preserves_cache_apply_loop|intros _].
  apply preserves_cache_ret.
Qed.

(** C8.  No write purges or overwrites a cached value: whatever a key of the
    cache holds before [create_self_user_library_entry], [import_bookmarks]
    or [batch_update_user_library_entry], it holds after it, whether the
    write returns or raises (the first two leave the cache exactly as it
    was; the batch update can only add the entries it loads).  So a read
    that was cached before the write returns the same value after it. *)
Theorem writes_never_invalidate_cache (o : write_op) (w : World) :
  (∀ key d, cache w !! key = Some d → cache (run_write o w) !! key = Some d)
  ∧ match o with
    | Create _ _ _ | Import _ _ => cache (run_write o w) = cache w
    | BatchUpdate _ _ => True
    end
  ∧ (∀ r d, cache w !! read_key r = Some d →
       (run_read r w).1 = Returned (Some d)
       ∧ (run_read r (run_write o w)).1 = Returned (Some d)).
Proof.
  assert (cache w ⊆ cache (run_write o w)) as Hsub.
  { destruct o; simpl.
    - by rewrite create_keeps_cache.
    - by rewrite import_keeps_cache.
    - apply batch_preserves_cache. }
  split; [|split].
  - intros key d Hkey. by apply (lookup_weaken (cache w)).
  - destruct o; simpl; [apply create_keeps_cache|apply import_keeps_cache|done].
  - intros r d Hkey. split.
    + by rewrite (read_hit r w d Hkey).
    + by rewrite (read_hit r _ d) by (by apply (lookup_weaken (cache w))).
Qed.
End CacheFrame.

(** ** The theorems at work on the fixture *)

(** C1 on the fixture: the second of three elements names listing 99, which
    does not resolve; the call returns that one error and the world is as
    before. *)
Lemma batch_is_rejected_as_a_whole_witness :
  Exists (@entry_invalid Fixture.env "alice") Fixture.second_unresolvable
  ∧ @batch_update_user_library_entry Fixture.env "alice" Fixture.second_unresolvable
      Fixture.world
    = (Returned (Some ["Listing obj not found"], None), Fixture.world).
Proof.
  assert (Exists (@entry_invalid Fixture.env "alice") Fixture.second_unresolvable) as Hbad.
  { apply Exists_cons_tl, Exists_cons_hd. right. left. by exists (Some 99). }
  split; [exact Hbad|].
  exact (proj1 (@batch_is_rejected_as_a_whole Fixture.env "alice"
                  Fixture.second_unresolvable Fixture.world Hbad)).
Defined.

(** C2 on the fixture: notification 10 lists the ids 1, 99 and 2; the import
    returns two entries and dismisses the notification once. *)
Lemma import_is_best_effort_per_listing_witness :
  ∃ imported w',
    @import_bookmarks Fixture.env "alice" 10 Fixture.world
    = (Returned (None, Some imported), w')
    ∧ entry_fields <$> imported
      = [(Fixture.wiki, Fixture.alice, Some "shared");
         (Fixture.mail, Fixture.alice, Some "shared")]
    ∧ dismissed w' = [(10, "alice")].
Proof.
  destruct (@import_is_best_effort_per_listing Fixture.env "alice" 10 Fixture.world
              Fixture.share [1; 99; 2] eq_refl)
    as (imported & w' & Hrun & Hfields & _ & Hdismissed & _).
  { repeat split; done. }
  exists imported, w'. split; [exact Hrun|]. split; [exact Hfields|exact Hdismissed].
Defined.

(** C3 on the fixture: notification 12 is addressed to bob, names no folder
    and lists no bookmark; the call returns errors and changes nothing. *)
Lemma import_rejects_invalid_notification_witness :
  ∃ errors,
    @import_bookmarks Fixture.env "alice" 12 Fixture.world
    = (Returned (Some errors, None), Fixture.world)
    ∧ errors ≠ [].
Proof.
  destruct (@import_rejects_invalid_notification Fixture.env "alice" 12 Fixture.world)
    as (errors & Hrun & Hne & _).
  { right. left. discriminate. }
  exists errors. split; [exact Hrun|exact Hne].
Defined.

(** C10 on the fixture: the batch passes validation, entry 99 does not
    exist; the call raises, row 1 is left rewritten and row 3 is as before. *)
Lemma batch_apply_is_not_atomic_witness :
  ∃ e w',
    @batch_update_user_library_entry Fixture.env "alice" Fixture.second_missing Fixture.world
    = (Raised e, w')
    ∧ exn_cls e = AttributeError
    ∧ library w' !! 1 = Some (mkEntry (Some 1) Fixture.mail Fixture.alice (Some "tools"))
    ∧ library w' !! 3 = Some Fixture.row3.
Proof.
  destruct (@batch_apply_is_not_atomic Fixture.env "alice"
              (mkDataEntry (Some (Some 2)) (Some 1) (Some (Some "tools")))
              (mkDataEntry (Some (Some 1)) (Some 99) None)
              [mkDataEntry (Some (Some 1)) (Some 3) (Some (Some "tools"))]
              Fixture.world 1 99 Fixture.row1)
    as (e & w' & listing_id & listing & Hrun & Hcls & Hl & Hg & Hfirst & Hothers);
    try (vm_compute; done).
  exists e, w'. split; [exact Hrun|]. split; [exact Hcls|].
  assert (listing = Fixture.mail) as ->.
  { injection Hl as <-. vm_compute in Hg. by injection Hg. }
  split; [exact Hfirst|]. by rewrite (Hothers 3).
Defined.

(** ** Cache keys *)

Section CacheKeys.
Context `{Collaborators}.

(** The cache keys of the three reads never meet: the key of
    [get_all_library_entries] is no key of [get_library_entry_by_id], neither
    is a key of [get_self_application_library] whatever [make_keysafe]
    returns, and two ids have the same ['library:<id>'] key only when they
    are equal.  So no read is answered from the slot of another read or of
    another id. *)
Theorem read_keys_are_separate :
  (∀ i j, read_key (GetById i) = read_key (GetById j) ↔ i = j)
  ∧ (∀ i, read_key GetAll ≠ read_key (GetById i))
  ∧ (∀ username listing_type folder_name,
       read_key GetAll ≠ read_key (GetSelf username listing_type folder_name))
  ∧ (∀ i username listing_type folder_name,
       read_key (GetById i) ≠ read_key (GetSelf username listing_type folder_name)).
Proof.
  split; [|split; [|split]].
  - intros i j. split; [apply library_key_inj|by intros ->].
  - intros i. simpl. discriminate.
  - intros username listing_type folder_name. simpl. discriminate.
  - intros i username listing_type folder_name. simpl. discriminate.
Qed.
End CacheKeys.

(** ** An invariant of the table and the cache *)

Section Consistency.
Context `{Collaborators}.

Lemma lookup_result_run (library_entry_id : Z) (w : World) :
  (get_library_entry_by_id library_entry_id w).1
  = Returned (lookup_result w library_entry_id).
Proof.
  change (get_library_entry_by_id library_entry_id w)
    with (run_read (GetById library_entry_id) w).
  unfold lookup_result.
  destruct (cache w !! ("library:" +:+ pretty library_entry_id)) as [d|] eqn:Hc.
  - by rewrite (read_hit (GetById library_entry_id) w d Hc).
  - rewrite (read_miss (GetById library_entry_id) w Hc). simpl.
    by destruct (visible_row w library_entry_id).
Qed.

Lemma maintains_ret {A} (inv : World → Prop) (a : A) : maintains inv (mret a : M A).
Proof. by intros w. Qed.

Lemma maintains_raise {A} (inv : World → Prop) (cls : exn_class) (msg : string) :
  maintains inv (raise cls msg : M A).
Proof. by intros w. Qed.

Lemma maintains_bind {A B} (inv : World → Prop) (m : M A) (k : A → M B) :
  maintains inv m → (∀ a, maintains inv (k a)) → maintains inv (m ≫= k).
Proof.
  intros Hm Hk w Hw. unfold mbind, M_bind, bind.
  specialize (Hm w Hw). destruct (m w) as [[a|e] w1]; simpl in *; [|done].
  by apply Hk.
Qed.

Lemma maintains_getitem {A} (inv : World → Prop) (v : option A) (key : string) :
  maintains inv (getitem v key).
Proof. destruct v; [apply maintains_ret|apply maintains_raise]. Qed.

Lemma read_consistent (r : read_op) : maintains consistent (run_read r).
Proof.
  intros w [Htable Hcache].
  destruct (cache w !! read_key r) as [d|] eqn:Hc.
  { by rewrite (read_hit r w d Hc). }
  rewrite (read_miss r w Hc).
  destruct (read_load r w) as [d|] eqn:Hload; [|done].
  split; [exact Htable|]. intros i d'. cbn [snd cache].
  destruct r as [|j|username listing_type folder_name].
  - rewrite lookup_insert_ne by (simpl; discriminate). apply Hcache.
  - destruct (decide (j = i)) as [->|Hne].
    + rewrite lookup_insert_eq. intros [= <-].
      simpl in Hload. unfold visible_row in Hload.
      destruct (library w !! i) as [row|] eqn:Hrow; [|done].
      destruct (is_deleted (entry_listing row)); [done|].
      injection Hload as <-. exists row. split; [done|]. by apply Htable.
    + rewrite lookup_insert_ne; [apply Hcache|].
      intros Hkey. by apply library_key_inj in Hkey.
  - rewrite lookup_insert_ne by (simpl; discriminate). apply Hcache.
Qed.

Lemma save_consistent (e : ApplicationLibraryEntry) : maintains consistent (save e).
Proof.
  intros w [Htable Hcache]. split; [|exact Hcache].
  intros k row. cbn [snd save library].
  intros [[<- <-]|[_ Hold]]%lookup_insert_Some; [done|by apply Htable].
Qed.

Lemma apply_loop_consistent (validated_data : list NewDataEntry) :
  maintains consistent (apply_loop validated_data).
Proof.
  induction validated_data as [|data_entry rest IH]; [apply maintains_ret|].
  simpl apply_loop.
  apply maintains_bind; [apply maintains_getitem|intros library_entry_id].
  apply maintains_bind;
    [apply (read_consistent (GetById library_entry_id))|intros instance].
  apply maintains_bind; [apply maintains_getitem|intros folder].
  apply maintains_bind;
    [by destruct instance as [[e|rows]|]; intros w|intros instance'].
  apply maintains_bind; [apply maintains_getitem|intros listing].
  apply maintains_bind;
    [by destruct instance' as [[e|rows]|]; intros w|intros instance''].
  apply maintains_bind; [|intros _; exact IH].
  destruct instance'' as [[e|rows]|]; [|by intros w..].
  apply maintains_bind; [apply save_consistent|intros _; apply maintains_ret].
Qed.

Lemma write_consistent (o : write_op) (w : World) : consistent w → consistent (run_write o w).
Proof.
  intros Hw. destruct o as [username listing_id folder_name|username notification|username data];
    simpl.
  - destruct (get_listing_by_id username (Some listing_id)) as [listing|] eqn:Hl;
      [destruct (get_profile username) as [owner|] eqn:Hp|].
    + unfold create_self_user_library_entry. rewrite Hl, Hp. by apply save_consistent.
    + by rewrite (create_not_found _ _ _ _ (or_intror Hp)).
    + by rewrite (create_not_found _ _ _ _ (or_introl Hl)).
  - destruct (import_valid_or_invalid username notification)
      as [Hbad|(n & ids & Hn & Hvalid)].
    + by destruct (import_invalid_run username notification w Hbad) as (errors & -> & _).
    + destruct (import_valid_run username notification w n ids Hn Hvalid)
        as (imported & w' & -> & _ & _ & Hc & _ & Hlib & _).
      destruct Hw as [Htable Hcache]. split.
      * intros k e [Hold|[_ Hpk]]%Hlib; [by apply Htable|done].
      * intros i d. cbn [snd]. rewrite Hc. apply Hcache.
  - revert w Hw. change (maintains consistent (batch_update_user_library_entry username data)).
    unfold batch_update_user_library_entry. rewrite validation_run.
    destruct (nonempty _); [apply maintains_ret|].
    apply maintains_bind; [apply apply_loop_consistent|intros _; apply maintains_ret].
Qed.

(** Rows stay under their own primary key and ['library:<id>'] keeps
    holding an entry with primary key [id]: every read and every write,
    returning or raising, takes a world with these two properties to a
    world with them. *)
Theorem consistency_is_kept (r : read_op) (o : write_op) (w : World) :
  consistent w → consistent (run_read r w).2 ∧ consistent (run_write o w).
Proof. intros Hw. split; [by apply read_consistent|by apply write_consistent]. Qed.
End Consistency.

Lemma fixture_consistent : consistent Fixture.world.
Proof.
  split.
  - intros k e. unfold Fixture.world. cbn [library].
    rewrite !lookup_insert_Some, lookup_empty.
    intros [[<- <-]|[_ [[<- <-]|[_ [[<- <-]|[_ ?]]]]]]; done.
  - intros i d. unfold Fixture.world. cbn [cache]. by rewrite lookup_empty.
Qed.

(** The invariant on the fixture, across a read that fills the cache and a
    batch update that raises half way. *)
Lemma consistency_is_kept_witness :
  consistent (@run_read Fixture.env (GetById 2) Fixture.world).2
  ∧ consistent (@run_write Fixture.env (BatchUpdate "alice" Fixture.second_missing)
                  Fixture.world).
Proof.
  exact (@consistency_is_kept Fixture.env (GetById 2)
           (BatchUpdate "alice" Fixture.second_missing) Fixture.world fixture_consistent).
Defined.

(** ** A batch whose entries all exist *)

Section BatchApplies.
Context `{Collaborators}.

Lemma resolves_lookup (w : World) (i : Z) : resolves w i ↔ is_Some (lookup_result w i).
Proof.
  unfold resolves, lookup_result.
  destruct (cache w !! ("library:" +:+ pretty i)) as [d|].
  - split; [by eauto|]. intros _. left. by eauto.
  - rewrite fmap_is_Some. split; [|by right]. intros [[? [=]]|?]; done.
Qed.

(** The answer of [get_library_entry_by_id] for an id that resolves. *)
Lemma get_resolved (w : World) (i : Z) :
  consistent w → resolves w i →
  ∃ e w1,
    get_library_entry_by_id i w = (Returned (Some (Entry e)), w1)
    ∧ entry_pk e = Some i
    ∧ lookup_result w i = Some (Entry e)
    ∧ library w1 = library w
    ∧ dismissed w1 = dismissed w
    ∧ cache w1 !! ("library:" +:+ pretty i) = Some (Entry e)
    ∧ (∀ j, j ≠ i → cache w1 !! ("library:" +:+ pretty j)
                    = cache w !! ("library:" +:+ pretty j)).
Proof.
  intros [Htable Hcache] Hres.
  change (get_library_entry_by_id i w) with (run_read (GetById i) w).
  unfold lookup_result.
  destruct (cache w !! ("library:" +:+ pretty i)) as [d|] eqn:Hc.
  - destruct (Hcache i d Hc) as (e & -> & Hpk).
    exists e, w. rewrite (read_hit (GetById i) w (Entry e) Hc). done.
  - destruct Hres as [[d Hd]|[row Hrow]]; [congruence|].
    rewrite (read_miss (GetById i) w Hc). simpl read_load. rewrite Hrow. simpl.
    exists row, (mkWorld (<["library:" +:+ pretty i := Entry row]> (cache w)) (library w)
                   (dismissed w) (queries w ++ [SelectById i])).
    split; [done|]. split.
    { unfold visible_row in Hrow. destruct (library w !! i) as [row'|] eqn:Hi; [|done].
      destruct (is_deleted (entry_listing row')); [done|].
      injection Hrow as <-. by apply Htable. }
    split; [done|]. split; [done|]. split; [done|]. split.
    + apply lookup_insert_eq.
    + intros j Hne. cbn [cache]. rewrite lookup_insert_ne; [done|].
      intros Hkey. apply (library_key_inj i j) in Hkey. done.
Qed.

(** The loop over a validated batch whose ids all resolve: it runs to its
    end, rewrites the row of every id it names and no other, and leaves
    the answers of [get_library_entry_by_id] as they were. *)
Lemma apply_loop_applies (validated_data : list NewDataEntry) :
  ∀ w,
    consistent w →
    Forall (λ n, ∃ listing i folder,
                   n = mkNewDataEntry (Some listing) (Some i) (Some folder) ∧ resolves w i)
      validated_data →
    ∃ w',
      apply_loop validated_data w = (Returned tt, w')
      ∧ dismissed w' = dismissed w
      ∧ (∀ j, lookup_result w' j = lookup_result w j)
      ∧ (∀ k, (∀ n, n ∈ validated_data → nd_id n ≠ Some k) →
              library w' !! k = library w !! k)
      ∧ (∀ n i, n ∈ validated_data → nd_id n = Some i →
           ∃ row n',
             library w' !! i = Some row
             ∧ entry_pk row = Some i
             ∧ n' ∈ validated_data
             ∧ nd_id n' = Some i
             ∧ nd_listing n' = Some (entry_listing row)
             ∧ nd_folder n' = Some (entry_folder row)).
Proof.
  induction validated_data as [|first rest IH]; intros w Hw Hall.
  { exists w. repeat split; try done. intros n i Hn. by apply elem_of_nil in Hn. }
  apply Forall_cons in Hall as [(listing & i & folder & -> & Hres) Hrest].
  destruct (get_resolved w i Hw Hres)
    as (e & w1 & Hget & Hpk & Hlook & Hlib1 & Hdis1 & Hci & Hcother).
  rewrite apply_loop_cons, Hget. cbv zeta. rewrite Hpk. simpl default.
  set (row := mkEntry (Some i) listing (entry_owner e) folder).
  set (w2 := mkWorld _ _ _ _).
  assert (∀ j, lookup_result w2 j = lookup_result w j) as Hsame.
  { intros j. unfold lookup_result at 1. subst w2. cbn [cache].
    destruct (decide (j = i)) as [->|Hne]; [by rewrite Hci, Hlook|].
    rewrite (Hcother j Hne). unfold lookup_result, visible_row. cbn [library].
    rewrite Hlib1. by rewrite lookup_insert_ne. }
  assert (consistent w2) as Hw2.
  { pose proof (read_consistent (GetById i) w Hw) as [Ht1 Hc1].
    change (run_read (GetById i) w) with (get_library_entry_by_id i w) in Ht1, Hc1.
    rewrite Hget in Ht1, Hc1. split; [|exact Hc1].
    intros k e'. subst w2. cbn [library].
    intros [[<- <-]|[_ Hold]]%lookup_insert_Some; [done|by apply Ht1]. }
  destruct (IH w2 Hw2) as (w' & Hrun & Hdis & Hinv & Hframe & Hrows).
  { eapply Forall_impl; [exact Hrest|].
    intros n (l' & i' & f' & -> & Hres'). exists l', i', f'. split; [done|].
    apply resolves_lookup. rewrite Hsame. by apply resolves_lookup. }
  exists w'. split; [exact Hrun|]. split; [by rewrite Hdis|].
  split; [intros j; by rewrite Hinv|]. split.
  - intros k Hk. rewrite Hframe.
    + subst w2. cbn [library]. rewrite Hlib1. rewrite lookup_insert_ne; [done|].
      intros ->. by apply (Hk _ (list_elem_of_here _ _)).
    + intros n Hn. apply Hk. by apply list_elem_of_further.
  - assert (∀ j, (∃ n, n ∈ rest ∧ nd_id n = Some j) →
                 ∃ row' n', library w' !! j = Some row' ∧ entry_pk row' = Some j
                            ∧ n' ∈ mkNewDataEntry (Some listing) (Some i) (Some folder) :: rest
                            ∧ nd_id n' = Some j
                            ∧ nd_listing n' = Some (entry_listing row')
                            ∧ nd_folder n' = Some (entry_folder row')) as Hlater.
    { intros j (n & Hn & Hj). destruct (Hrows n j Hn Hj) as (row' & n' & ? & ? & ? & ?).
      exists row', n'. repeat (split; [done|]). split; [by apply list_elem_of_further|done]. }
    intros n j [->|Hn]%elem_of_cons Hj; [|by apply Hlater; eauto].
    simpl in Hj. injection Hj as <-.
    destruct (decide (Exists (λ n, nd_id n = Some i) rest)) as [Hagain|Hlast].
    + apply Exists_exists in Hagain as (n & Hn & Hi). apply Hlater. by eauto.
    + exists row, (mkNewDataEntry (Some listing) (Some i) (Some folder)).
      split.
      { rewrite Hframe.
        - subst w2. cbn [library]. apply lookup_insert_eq.
        - intros n Hn Hi. apply Hlast. apply Exists_exists. by eauto. }
      split; [done|]. split; [apply list_elem_of_here|done].
Qed.

Lemma all_accepted (username : string) (data : list DataEntry) :
  flat_map (entry_errors username) data = [] →
  ∀ e, e ∈ data → entry_errors username e = [].
Proof.
  induction data as [|first rest IH]; simpl; intros Hnil e He.
  - by apply elem_of_nil in He.
  - apply app_eq_nil in Hnil as [Hfirst Hrest].
    apply elem_of_cons in He as [->|He]; [done|by apply IH].
Qed.

Lemma batch_applies (username : string) (data : list DataEntry) (w : World) :
  consistent w →
  flat_map (entry_errors username) data = [] →
  (∀ e i, e ∈ data → de_id e = Some i → resolves w i) →
  ∃ w',
    batch_update_user_library_entry username data w = (Returned (None, Some data), w')
    ∧ dismissed w' = dismissed w
    ∧ (∀ j, lookup_result w' j = lookup_result w j)
    ∧ (∀ k, (∀ e, e ∈ data → de_id e ≠ Some k) → library w' !! k = library w !! k)
    ∧ (∀ e i, e ∈ data → de_id e = Some i →
         ∃ row e' listing_id,
           library w' !! i = Some row
           ∧ entry_pk row = Some i
           ∧ e' ∈ data
           ∧ de_id e' = Some i
           ∧ de_listing e' = Some listing_id
           ∧ get_listing_by_id username listing_id = Some (entry_listing row)
           ∧ entry_folder row = default None (de_folder e')).
Proof.
  intros Hw Hpass Hres.
  pose proof (all_accepted username data Hpass) as Hvalid.
  destruct (apply_loop_applies (omap (accepted username) data) w Hw)
    as (w' & Hrun & Hdis & Hinv & Hframe & Hrows).
  { apply Forall_forall. intros n (e & He & Hacc)%list_elem_of_omap.
    destruct (accepted_valid username e (Hvalid e He)) as (lid & l & i & Hl & Hg & Hi & Ha).
    rewrite Ha in Hacc. injection Hacc as <-. exists l, i, (default None (de_folder e)).
    split; [done|]. by apply (Hres e). }
  exists w'. split.
  { unfold batch_update_user_library_entry. rewrite validation_run, Hpass.
    rewrite !app_nil_l. cbn [nonempty].
    unfold mbind at 1, M_bind at 1, bind at 1. by rewrite Hrun. }
  split; [done|]. split; [done|]. split.
  - intros k Hk. apply Hframe. intros n (e & He & Hacc)%list_elem_of_omap.
    destruct (accepted_valid username e (Hvalid e He)) as (lid & l & i & Hl & Hg & Hi & Ha).
    rewrite Ha in Hacc. injection Hacc as <-. simpl. rewrite <- Hi. by apply Hk.
  - intros e i He Hi.
    destruct (accepted_valid username e (Hvalid e He)) as (lid & l & i' & Hl & Hg & Hi' & Ha).
    assert (i' = i) as -> by congruence.
    destruct (Hrows _ i (proj2 (list_elem_of_omap _ _ _) (ex_intro _ e (conj He Ha))) eq_refl)
      as (row & n' & Hrow & Hpk & (e' & He' & Hacc')%list_elem_of_omap & Hid' & Hl' & Hf').
    destruct (accepted_valid username e' (Hvalid e' He'))
      as (lid' & l' & j & Hlid' & Hg' & Hj & Ha').
    rewrite Ha' in Hacc'. injection Hacc' as <-. simpl in Hid', Hl', Hf'.
    exists row, e', lid'. repeat (split; [done|]).
    split; [congruence|]. split; [done|]. split; [congruence|congruence].
Qed.

(** When the batch passes validation and every id it names resolves,
    [batch_update_user_library_entry] returns [(None, data)], the payload it
    was given.  Afterwards the row of every id named in the batch holds the
    listing and the folder of an element naming that id (an absent
    ['folder'] clears the folder) and keeps its primary key, and the rows of
    the ids the batch does not name are untouched. *)
Theorem batch_update_rewrites_named_rows (username : string) (data : list DataEntry)
    (w : World) :
  consistent w →
  flat_map (entry_errors username) data = [] →
  (∀ e i, e ∈ data → de_id e = Some i → resolves w i) →
  ∃ w',
    batch_update_user_library_entry username data w = (Returned (None, Some data), w')
    ∧ dismissed w' = dismissed w
    ∧ (∀ k, (∀ e, e ∈ data → de_id e ≠ Some k) → library w' !! k = library w !! k)
    ∧ (∀ e i, e ∈ data → de_id e = Some i →
         ∃ row e' listing_id,
           library w' !! i = Some row
           ∧ entry_pk row = Some i
           ∧ e' ∈ data
           ∧ de_id e' = Some i
           ∧ de_listing e' = Some listing_id
           ∧ get_listing_by_id username listing_id = Some (entry_listing row)
           ∧ entry_folder row = default None (de_folder e')).
Proof.
  intros Hw Hpass Hres.
  destruct (batch_applies username data w Hw Hpass Hres)
    as (w' & Hrun & Hdis & _ & Hframe & Hrows).
  by exists w'.
Qed.

(** A batch update does not show through [get_library_entry_by_id]: when
    the batch passes validation and every id it names resolves, the call
    returns for every id, after the update, what it returned before it,
    although the rows of the batch have been rewritten in the table. *)
Theorem batch_update_is_invisible_to_lookup (username : string) (data : list DataEntry)
    (w : World) :
  consistent w →
  flat_map (entry_errors username) data = [] →
  (∀ e i, e ∈ data → de_id e = Some i → resolves w i) →
  ∀ j, (get_library_entry_by_id j
          (batch_update_user_library_entry username data w).2).1
       = (get_library_entry_by_id j w).1.
Proof.
  intros Hw Hpass Hres j.
  destruct (batch_applies username data w Hw Hpass Hres) as (w' & Hrun & _ & Hinv & _).
  rewrite Hrun. cbn [snd]. by rewrite !lookup_result_run, Hinv.
Qed.
End BatchApplies.

Lemma reorganize_resolves (e : DataEntry) (i : Z) :
  e ∈ Shared.reorganize → de_id e = Some i → resolves Fixture.world i.
Proof.
  unfold Shared.reorganize. rewrite !elem_of_cons, elem_of_nil.
  intros [->|[->|[]]] [= <-]; right; vm_compute; eauto.
Qed.

(** The batch [Shared.reorganize] on the fixture: it returns its payload
    and row 2, which it does not name, is as before. *)
Lemma batch_update_rewrites_named_rows_witness :
  ∃ w',
    @batch_update_user_library_entry Fixture.env "alice" Shared.reorganize Fixture.world
    = (Returned (None, Some Shared.reorganize), w')
    ∧ dismissed w' = []
    ∧ library w' !! 2 = Some Fixture.row2.
Proof.
  destruct (@batch_update_rewrites_named_rows Fixture.env "alice" Shared.reorganize
              Fixture.world fixture_consistent eq_refl reorganize_resolves)
    as (w' & Hrun & Hdis & Hframe & _).
  exists w'. split; [exact Hrun|]. split; [exact Hdis|].
  rewrite (Hframe 2); [reflexivity|].
  unfold Shared.reorganize. intros e. rewrite !elem_of_cons, elem_of_nil.
  intros [->|[->|[]]]; discriminate.
Defined.

(** After the batch [Shared.reorganize], entry 1 is still read as it was
    before the update. *)
Lemma batch_update_is_invisible_to_lookup_witness :
  (get_library_entry_by_id 1
     (@batch_update_user_library_entry Fixture.env "alice" Shared.reorganize
        Fixture.world).2).1
  = Returned (Some (Entry Fixture.row1)).
Proof.
  exact (@batch_update_is_invisible_to_lookup Fixture.env "alice" Shared.reorganize
           Fixture.world fixture_consistent eq_refl reorganize_resolves 1).
Defined.

(** ** What a write leaves alone *)

Section Frame.
Context `{Collaborators}.

Lemma keeps_ret {A B} (component : World → B) (a : A) : keeps component (mret a : M A).
Proof. by intros w. Qed.

Lemma keeps_raise {A B} (component : World → B) (cls : exn_class) (msg : string) :
  keeps component (raise cls msg : M A).
Proof. by intros w. Qed.

Lemma keeps_bind {A B C} (component : World → C) (m : M A) (k : A → M B) :
  keeps component m → (∀ a, keeps component (k a)) → keeps component (m ≫= k).
Proof.
  intros Hm Hk w. unfold mbind, M_bind, bind.
  specialize (Hm w). destruct (m w) as [[a|e] w1]; simpl in *; [|done].
  by rewrite Hk.
Qed.

Lemma keeps_getitem {A B} (component : World → B) (v : option A) (key : string) :
  keeps component (getitem v key).
Proof. destruct v; [apply keeps_ret|apply keeps_raise]. Qed.

Lemma read_keeps_dismissed (r : read_op) : keeps dismissed (run_read r).
Proof.
  intros w. destruct (cache w !! read_key r) as [d|] eqn:Hc.
  - by rewrite (read_hit r w d Hc).
  - rewrite (read_miss r w Hc). by destruct (read_load r w).
Qed.

Lemma apply_loop_keeps_dismissed (validated_data : list NewDataEntry) :
  keeps dismissed (apply_loop validated_data).
Proof.
  induction validated_data as [|data_entry rest IH]; [apply keeps_ret|].
  simpl apply_loop.
  apply keeps_bind; [apply keeps_getitem|intros library_entry_id].
  apply keeps_bind; [apply (read_keeps_dismissed (GetById library_entry_id))|intros instance].
  apply keeps_bind; [apply keeps_getitem|intros folder].
  apply keeps_bind; [by destruct instance as [[e|rows]|]; intros w|intros instance'].
  apply keeps_bind; [apply keeps_getitem|intros listing].
  apply keeps_bind; [by destruct instance' as [[e|rows]|]; intros w|intros instance''].
  apply keeps_bind; [by destruct instance'' as [[e|rows]|]; intros w|intros _; exact IH].
Qed.

Lemma create_frame (username : string) (listing_id : Z) (folder_name : option string)
    (w : World) :
  let w' := (create_self_user_library_entry username listing_id folder_name w).2 in
  library w ⊆ library w' ∧ dismissed w' = dismissed w ∧ queries w' = queries w.
Proof.
  destruct (get_listing_by_id username (Some listing_id)) as [listing|] eqn:Hl;
    [destruct (get_profile username) as [owner|] eqn:Hp|].
  - rewrite (create_found _ _ _ _ listing owner Hl Hp). simpl.
    split; [|done]. apply insert_subseteq, fresh_id_fresh.
  - by rewrite (create_not_found _ _ _ _ (or_intror Hp)).
  - by rewrite (create_not_found _ _ _ _ (or_introl Hl)).
Qed.

Lemma import_frame (current_username : string) (notification : Z) (w : World) :
  let w' := (import_bookmarks current_username notification w).2 in
  library w ⊆ library w' ∧ queries w' = queries w
  ∧ (dismissed w' = dismissed w
     ∨ ∃ n, get_notification_by_id current_username notification = Some n
            ∧ dismissed w' = dismissed w ++ [(notification_id n, current_username)]).
Proof.
  destruct (import_valid_or_invalid current_username notification)
    as [Hbad|(n & ids & Hn & Hvalid)].
  - destruct (import_invalid_run current_username notification w Hbad) as (errors & -> & _).
    simpl. split; [done|]. split; [done|by left].
  - destruct (import_valid_run current_username notification w n ids Hn Hvalid)
      as (imported & w' & -> & _ & Hd & _ & Hq & Hlib & _).
    simpl. split; [|split; [done|right; by exists n]].
    apply map_subseteq_spec. intros k e Hk. apply Hlib. by left.
Qed.

(** What each write leaves alone.  [create_self_user_library_entry] and
    [import_bookmarks] never change or delete a row that exists and never
    read the library table, and the former dismisses nothing; an import
    dismisses nothing or its own notification, once;
    [batch_update_user_library_entry] dismisses nothing.  All of it holds
    whether the write returns or raises. *)
Theorem writes_leave_the_rest_alone (o : write_op) (w : World) :
  match o with
  | Create _ _ _ =>
      library w ⊆ library (run_write o w)
      ∧ dismissed (run_write o w) = dismissed w
      ∧ queries (run_write o w) = queries w
  | Import current_username notification =>
      library w ⊆ library (run_write o w)
      ∧ queries (run_write o w) = queries w
      ∧ (dismissed (run_write o w) = dismissed w
         ∨ ∃ n, get_notification_by_id current_username notification = Some n
                ∧ dismissed (run_write o w)
                  = dismissed w ++ [(notification_id n, current_username)])
  | BatchUpdate _ _ => dismissed (run_write o w) = dismissed w
  end.
Proof.
  destruct o as [username listing_id folder_name|username notification|username data].
  - apply create_frame.
  - apply import_frame.
  - simpl. revert w.
    change (keeps dismissed (batch_update_user_library_entry username data)).
    unfold batch_update_user_library_entry. rewrite validation_run.
    destruct (nonempty _); [apply keeps_ret|].
    apply keeps_bind; [apply apply_loop_keeps_dismissed|intros _; apply keeps_ret].
Qed.
End Frame.

(** ** More on imports *)

Section ImportCases.
Context `{Collaborators}.


Lemma omap_all_None {A B} (f : A → option B) (l : list A) :
  (∀ x, f x = None) → omap f l = [].
Proof.
  intros Hnone. induction l as [|a l IH]; [done|].
  change (omap f (a :: l))
    with (match f a with Some y => y :: omap f l | None => omap f l end).
  by rewrite Hnone.
Qed.

Lemma resolved_without_profile (username : string) (folder_name : option string)
    (listing_id : Z) :
  get_profile username = None → resolved username folder_name listing_id = None.
Proof.
  intros Hp. unfold resolved. rewrite Hp.
  by destruct (get_listing_by_id username (Some listing_id)).
Qed.

(** An import for a user without a profile.  When the notification passes
    validation and [get_profile] finds nobody, no entry can be created:
    the call still reports success with an empty list, the table is
    unchanged, and the notification is dismissed. *)
Theorem import_without_profile_consumes_notification (current_username : string)
    (notification : Z) (w : World) (n : Notification) (ids : list Z) :
  get_notification_by_id current_username notification = Some n →
  import_valid current_username n ids →
  get_profile current_username = None →
  import_bookmarks current_username notification w
  = (Returned (None, Some []),
     mkWorld (cache w) (library w)
       (dismissed w ++ [(notification_id n, current_username)]) (queries w)).
Proof.
  intros Hn Hvalid Hp.
  destruct (import_valid_run current_username notification w n ids Hn Hvalid)
    as (imported & w' & -> & Hfields & Hd & Hc & Hq & Hlib & _).
  assert (omap (resolved current_username (peer_folder_name (peer n))) ids = []) as Hnone.
  { apply omap_all_None. intros i. by apply resolved_without_profile. }
  rewrite Hnone in Hfields. apply fmap_nil_inv in Hfields as ->.
  f_equal. destruct w' as [c l d q]. simpl in *. subst c d q. f_equal.
  apply map_eq. intros k. apply option_eq. intros e. rewrite Hlib.
  split; [|by left]. intros [?|[Hin _]]; [done|]. by apply elem_of_nil in Hin.
Qed.
End ImportCases.

(** Carol has no profile: her import creates nothing and dismisses
    notification 20. *)
Lemma import_without_profile_consumes_notification_witness :
  @import_bookmarks Orphan.env "carol" 20 Fixture.world
  = (Returned (None, Some []),
     mkWorld (cache Fixture.world) (library Fixture.world) [(20, "carol")] []).
Proof.
  apply (@import_without_profile_consumes_notification Orphan.env "carol" 20
           Fixture.world Orphan.share [1; 2]); [reflexivity| |reflexivity].
  repeat split; done.
Defined.


(** ** What a cold read returns *)

Section ColdReads.
Context `{Collaborators}.

(** With nothing cached under ['library_entries'],
    [get_all_library_entries] returns the rows of the table whose listing is
    not deleted, all of them and no other, and caches that list. *)
Theorem get_all_returns_rows_of_live_listings (w : World) :
  cache w !! "library_entries" = None →
  ∃ rows,
    get_all_library_entries w
    = (Returned (Some (QuerySet rows)),
       mkWorld (<["library_entries" := QuerySet rows]> (cache w)) (library w) (dismissed w)
         (queries w ++ [SelectAll]))
    ∧ ∀ e, e ∈ rows
           ↔ (∃ k, library w !! k = Some e) ∧ is_deleted (entry_listing e) = false.
Proof.
  intros Hc. eexists. split; [exact (read_miss GetAll w Hc)|].
  intros e. rewrite select_spec, negb_true_iff. done.
Qed.

Lemma library_filter_spec (username : string) (listing_type folder_name : option string)
    (e : ApplicationLibraryEntry) :
  library_filter username listing_type folder_name e = true
  ↔ profile_username (entry_owner e) = username
    ∧ is_enabled (entry_listing e) = true
    ∧ is_deleted (entry_listing e) = false
    ∧ (truthy listing_type = true → listing_type_title (entry_listing e) = listing_type)
    ∧ (truthy folder_name = true → entry_folder e = folder_name).
Proof.
  unfold library_filter. rewrite !andb_true_iff, String.eqb_eq, negb_true_iff.
  destruct (truthy listing_type), (truthy folder_name);
    rewrite ?bool_decide_eq_true; intuition (try discriminate).
Qed.

(** With nothing cached under its key, [get_self_application_library]
    returns the rows owned by the sanitized user name
    [make_keysafe username] (not [username] itself) whose listing is enabled
    and not deleted, narrowed to the listing type and to the folder when
    these are given and not empty; all of these rows and no other. *)
Theorem get_self_returns_rows_of_sanitized_user (username : string)
    (listing_type folder_name : option string) (w : World) :
  cache w !! read_key (GetSelf username listing_type folder_name) = None →
  ∃ rows,
    (get_self_application_library username listing_type folder_name w).1
    = Returned (Some (QuerySet rows))
    ∧ ∀ e, e ∈ rows
           ↔ (∃ k, library w !! k = Some e)
             ∧ profile_username (entry_owner e) = make_keysafe username
             ∧ is_enabled (entry_listing e) = true
             ∧ is_deleted (entry_listing e) = false
             ∧ (truthy listing_type = true
                → listing_type_title (entry_listing e) = listing_type)
             ∧ (truthy folder_name = true → entry_folder e = folder_name).
Proof.
  intros Hc. eexists. split.
  { change (get_self_application_library username listing_type folder_name w)
      with (run_read (GetSelf username listing_type folder_name) w).
    by rewrite (read_miss _ w Hc). }
  intros e. rewrite select_spec, library_filter_spec. done.
Qed.

(** An empty string filters nothing.  With cold caches, a listing type
    [''] returns what no listing type returns, although the two calls use
    different cache keys, and a folder name [''] returns what no folder
    name returns. *)
Theorem empty_string_filters_nothing (username : string)
    (listing_type folder_name : option string) (w : World) :
  read_key (GetSelf username (Some "") folder_name)
  ≠ read_key (GetSelf username None folder_name)
  ∧ (cache w !! read_key (GetSelf username (Some "") folder_name) = None →
     cache w !! read_key (GetSelf username None folder_name) = None →
     (get_self_application_library username (Some "") folder_name w).1
     = (get_self_application_library username None folder_name w).1)
  ∧ (cache w !! read_key (GetSelf username listing_type folder_name) = None →
     (get_self_application_library username listing_type (Some "") w).1
     = (get_self_application_library username listing_type None w).1).
Proof.
  split; [simpl; discriminate|]. split.
  - intros Hc1 Hc2.
    change ((run_read (GetSelf username (Some "") folder_name) w).1
            = (run_read (GetSelf username None folder_name) w).1).
    by rewrite (read_miss _ w Hc1), (read_miss _ w Hc2).
  - intros Hc.
    change ((run_read (GetSelf username listing_type (Some "")) w).1
            = (run_read (GetSelf username listing_type None) w).1).
    rewrite (read_miss (GetSelf username listing_type (Some "")) w Hc).
    rewrite (read_miss (GetSelf username listing_type None) w Hc).
    reflexivity.
Qed.
End ColdReads.

(** [get_all_library_entries] on the fixture. *)
Lemma get_all_returns_rows_of_live_listings_witness :
  ∃ rows,
    get_all_library_entries Fixture.world
    = (Returned (Some (QuerySet rows)),
       mkWorld (<["library_entries" := QuerySet rows]> (cache Fixture.world))
         (library Fixture.world) (dismissed Fixture.world)
         (queries Fixture.world ++ [SelectAll]))
    ∧ ∀ e, e ∈ rows
           ↔ (∃ k, library Fixture.world !! k = Some e)
             ∧ is_deleted (entry_listing e) = false.
Proof.
  exact (@get_all_returns_rows_of_live_listings Fixture.env Fixture.world eq_refl).
Defined.

(** The library of alice in folder "work" on the fixture. *)
Lemma get_self_returns_rows_of_sanitized_user_witness :
  ∃ rows,
    (@get_self_application_library Fixture.env "alice" None (Some "work") Fixture.world).1
    = Returned (Some (QuerySet rows))
    ∧ (Fixture.row2 ∈ rows ∧ ¬ Fixture.row3 ∈ rows).
Proof.
  destruct (@get_self_returns_rows_of_sanitized_user Fixture.env "alice" None (Some "work")
              Fixture.world eq_refl) as (rows & Hrun & Hrows).
  exists rows. split; [exact Hrun|]. split.
  - apply Hrows. split; [by exists 2|]. repeat split; done.
  - intros (_ & _ & _ & _ & _ & Hfolder)%Hrows. by specialize (Hfolder eq_refl).
Defined.

(** ** Access controls *)

Lemma filter_head {A} (p : A → bool) (l : list A) (a : A) (rest : list A) :
  List.filter p l = a :: rest → a ∈ l ∧ p a = true.
Proof.
  intros Hf. rewrite list_elem_of_In. apply (filter_In p). rewrite Hf. by left.
Qed.

Lemma filter_none {A} (p : A → bool) (l : list A) :
  List.filter p l = [] → ∀ a, a ∈ l → p a = false.
Proof.
  intros Hf a Ha. destruct (p a) eqn:Hp; [|done].
  assert (In a (List.filter p l)) as Hin by (apply filter_In; by rewrite <- list_elem_of_In).
  rewrite Hf in Hin. destruct Hin.
Qed.

Lemma filter_two {A} (p : A → bool) (l : list A) (a b : A) (rest : list A) :
  List.filter p l = a :: b :: rest →
  ∃ i j, (i < j)%nat ∧ l !! i = Some a ∧ l !! j = Some b ∧ p a = true ∧ p b = true.
Proof.
  induction l as [|x l IH]; simpl; [done|].
  destruct (p x) eqn:Hx.
  - intros [= -> Hrest]. destruct (filter_head p l b rest Hrest) as [Hin Hb].
    apply list_elem_of_lookup in Hin as [j Hj].
    exists 0%nat, (S j). repeat split; try done. lia.
  - intros Hf. destruct (IH Hf) as (i & j & Hlt & Hi & Hj & Ha & Hb).
    exists (S i), (S j). repeat split; try done. lia.
Qed.

Lemma filter_of_two {A} (p : A → bool) (l : list A) :
  ∀ i j a b,
    (i < j)%nat → l !! i = Some a → l !! j = Some b → p a = true → p b = true →
    ∃ x y rest, List.filter p l = x :: y :: rest.
Proof.
  induction l as [|c l IH]; intros i j a b Hlt Hi Hj Ha Hb; [done|].
  destruct i as [|i].
  - destruct j as [|j]; [lia|]. simpl in Hi, Hj. injection Hi as ->.
    simpl. rewrite Ha.
    assert (In b (List.filter p l)) as Hin.
    { apply filter_In. split; [|done]. apply list_elem_of_In. by eapply list_elem_of_lookup_2. }
    destruct (List.filter p l) as [|y rest]; [destruct Hin|]. by eauto.
  - destruct j as [|j]; [lia|]. simpl in Hi, Hj.
    destruct (IH i j a b) as (x & y & rest & Hf); [lia|done..|].
    simpl. rewrite Hf. destruct (p c); by eauto.
Qed.

(** Which of its three endings [objects.get(title=title)] takes. *)
Lemma objects_get_by_title_spec (title : string) (rows : list AccessControl) :
  match objects_get_by_title title rows with
  | GetOne a =>
      ∃ i, rows !! i = Some a ∧ access_control_title a = title
           ∧ ∀ j b, rows !! j = Some b → access_control_title b = title → j = i
  | DoesNotExist => ∀ a, a ∈ rows → access_control_title a ≠ title
  | MultipleObjects =>
      ∃ i j a b, i ≠ j ∧ rows !! i = Some a ∧ rows !! j = Some b
                 ∧ access_control_title a = title ∧ access_control_title b = title
  end.
Proof.
  unfold objects_get_by_title.
  destruct (List.filter _ rows) as [|a [|b rest]] eqn:Hf.
  - intros a Ha Htitle. pose proof (filter_none _ _ Hf a Ha) as Hp. simpl in Hp.
    by apply String.eqb_neq in Hp.
  - destruct (filter_head _ _ a [] Hf) as [Ha Hp].
    apply list_elem_of_lookup in Ha as [i Hi]. exists i. split; [done|].
    split; [by apply String.eqb_eq|].
    intros j b Hj Hb%String.eqb_eq. destruct (decide (j = i)) as [|Hne]; [done|]. exfalso.
    set (p := λ c : AccessControl, String.eqb (access_control_title c) title) in *.
    destruct (decide (i < j)%nat).
    + destruct (filter_of_two p rows i j a b) as (x & y & rest & Hf'); [done..|].
      rewrite Hf in Hf'. discriminate.
    + destruct (filter_of_two p rows j i b a) as (x & y & rest & Hf'); [lia|done..|].
      rewrite Hf in Hf'. discriminate.
  - destruct (filter_two _ _ a b rest Hf) as (i & j & Hlt & Hi & Hj & Ha & Hb).
    apply String.eqb_eq in Ha, Hb. exists i, j, a, b. repeat split; try done. lia.
Qed.

Section AccessTheorems.
Context `{Collaborators}.

(** Titles that sanitize to the same string share a cache slot.  Once
    [get_access_control_by_title] has returned a value for a title, it
    returns the same value for every title with the same [make_keysafe]
    form, without looking at the table: whatever the second title is, and
    whether it has a row of its own or none. *)
Theorem access_control_titles_share_a_slot (title title' : string) (w : AccessWorld)
    (d : access_obj) :
  make_keysafe title = make_keysafe title' →
  (get_access_control_by_title title w).1 = AccessReturned (Some d) →
  get_access_control_by_title title' (get_access_control_by_title title w).2
  = (AccessReturned (Some d), (get_access_control_by_title title w).2).
Proof.
  intros Hkey. unfold get_access_control_by_title. rewrite <- Hkey.
  destruct (access_cache w !! ("access_control:" +:+ make_keysafe title)) as [d'|] eqn:Hc.
  - simpl. intros [= <-]. by rewrite Hc.
  - destruct (objects_get_by_title title (access_controls w)) as [a| |]; simpl; [|done..].
    intros [= <-]. by rewrite lookup_insert_eq.
Qed.

(** [get_access_control_by_title] with nothing cached under the key of the
    title ends in one of three ways, each exactly in its case.  It returns
    a value exactly when one row of the table, and no other, has the title:
    the value is that row, and it is now cached under the key.  It returns
    [None] exactly when no row has the title, and then nothing is cached.
    [MultipleObjectsReturned] leaves the call exactly when two rows have the
    title, and then nothing is cached. *)
Theorem access_control_lookup_on_cold_cache (title : string) (w : AccessWorld) :
  access_cache w !! ("access_control:" +:+ make_keysafe title) = None →
  (∀ d w',
     get_access_control_by_title title w = (AccessReturned (Some d), w')
     ↔ ∃ a i,
         d = AccessControlObj a
         ∧ w' = mkAccessWorld
                  (<["access_control:" +:+ make_keysafe title := d]> (access_cache w))
                  (access_controls w)
         ∧ access_controls w !! i = Some a
         ∧ access_control_title a = title
         ∧ ∀ j b, access_controls w !! j = Some b → access_control_title b = title → j = i)
  ∧ (∀ w',
       get_access_control_by_title title w = (AccessReturned None, w')
       ↔ w' = w ∧ ∀ a, a ∈ access_controls w → access_control_title a ≠ title)
  ∧ (∀ w',
       get_access_control_by_title title w = (MultipleObjectsReturned, w')
       ↔ w' = w
         ∧ ∃ i j a b, i ≠ j
                      ∧ access_controls w !! i = Some a ∧ access_controls w !! j = Some b
                      ∧ access_control_title a = title ∧ access_control_title b = title).
Proof.
  intros Hc. unfold get_access_control_by_title. rewrite Hc.
  pose proof (objects_get_by_title_spec title (access_controls w)) as Hspec.
  destruct (objects_get_by_title title (access_controls w)) as [a| |].
  - destruct Hspec as (i & Hi & Htitle & Honly). split; [|split].
    + intros d w'. split.
      * intros [= <- <-]. by exists a, i.
      * intros (a' & i' & -> & -> & Hi' & Htitle' & _).
        assert (i' = i) as -> by (by apply (Honly i' a')). congruence.
    + intros w'. split; [done|]. intros [_ Hnone]. exfalso.
      apply (Hnone a); [by eapply list_elem_of_lookup_2|done].
    + intros w'. split; [done|]. intros [_ (i1 & i2 & a1 & a2 & Hne & H1 & H2 & Ht1 & Ht2)].
      exfalso. apply Hne. by rewrite (Honly i1 a1 H1 Ht1), (Honly i2 a2 H2 Ht2).
  - split; [|split].
    + intros d w'. split; [done|]. intros (a & i & _ & _ & Hi & Htitle & _). exfalso.
      apply (Hspec a); [by eapply list_elem_of_lookup_2|done].
    + intros w'. split; [by intros [= <-]|by intros [-> _]].
    + intros w'. split; [done|]. intros [_ (i & j & a & b & _ & Hi & _ & Htitle & _)].
      exfalso. apply (Hspec a); [by eapply list_elem_of_lookup_2|done].
  - destruct Hspec as (i & j & a & b & Hne & Hi & Hj & Ha & Hb). split; [|split].
    + intros d w'. split; [done|]. intros (a' & i' & _ & _ & _ & _ & Honly). exfalso.
      apply Hne. by rewrite (Honly i a Hi Ha), (Honly j b Hj Hb).
    + intros w'. split; [done|]. intros [_ Hnone]. exfalso.
      apply (Hnone a); [by eapply list_elem_of_lookup_2|done].
    + intros w'. split; [intros [= <-]|by intros [-> _]].
      split; [done|]. by exists i, j, a, b.
Qed.

(** What the access-control reads have cached they return whatever the
    table has become: after [get_all_access_controls] has run, and after
    [get_access_control_by_title] has returned a value, the same call on any
    other table returns what the first call returned. *)
Theorem cached_access_controls_ignore_the_table (title : string) (w : AccessWorld)
    (rows' : list AccessControl) :
  (let first := get_all_access_controls w in
   (get_all_access_controls (mkAccessWorld (access_cache first.2) rows')).1 = first.1)
  ∧ (let first := get_access_control_by_title title w in
     ∀ d, first.1 = AccessReturned (Some d) →
          (get_access_control_by_title title
             (mkAccessWorld (access_cache first.2) rows')).1
          = AccessReturned (Some d)).
Proof.
  split.
  - unfold get_all_access_controls.
    destruct (access_cache w !! "access_control") as [d|] eqn:Hc; simpl.
    + by rewrite Hc.
    + by rewrite lookup_insert_eq.
  - unfold get_access_control_by_title.
    destruct (access_cache w !! ("access_control:" +:+ make_keysafe title)) as [d'|] eqn:Hc.
    + simpl. intros d [= <-]. by rewrite Hc.
    + destruct (objects_get_by_title title (access_controls w)) as [a| |]; simpl;
        [|done..].
      intros d [= <-]. by rewrite lookup_insert_eq.
Qed.
End AccessTheorems.

(** On the table of [Clearance]: after "TOP SECRET" has been looked up,
    "TOPSECRET" is answered with the access control titled "TOP SECRET",
    although the table has a row titled "TOPSECRET". *)
Lemma access_control_titles_share_a_slot_witness :
  (@get_access_control_by_title Clearance.env "TOPSECRET"
     (@get_access_control_by_title Clearance.env "TOP SECRET" Clearance.world).2).1
  = AccessReturned (Some (AccessControlObj Clearance.spaced)).
Proof.
  rewrite (@access_control_titles_share_a_slot Clearance.env "TOP SECRET" "TOPSECRET"
             Clearance.world (AccessControlObj Clearance.spaced) eq_refl eq_refl).
  reflexivity.
Defined.

(** On the table of [Clearance] with a cold cache, "TOPSECRET" is answered
    with its own row, which is then cached; on the table of [Duplicates],
    where two rows are titled "SECRET", [MultipleObjectsReturned] leaves the
    call. *)
Lemma access_control_lookup_on_cold_cache_witness :
  @get_access_control_by_title Clearance.env "TOPSECRET" Clearance.world
  = (AccessReturned (Some (AccessControlObj Clearance.joined)),
     mkAccessWorld (<["access_control:TOPSECRET" := AccessControlObj Clearance.joined]> ∅)
       [Clearance.spaced; Clearance.joined])
  ∧ @get_access_control_by_title Clearance.env "SECRET" Duplicates.world
    = (MultipleObjectsReturned, Duplicates.world).
Proof.
  split.
  - apply (proj1 (@access_control_lookup_on_cold_cache Clearance.env "TOPSECRET"
                    Clearance.world eq_refl)).
    exists Clearance.joined, 1%nat. repeat split; try reflexivity.
    intros [|[|[|j]]] b; simpl; intros [= <-]; done.
  - apply (proj2 (proj2 (@access_control_lookup_on_cold_cache Clearance.env "SECRET"
                           Duplicates.world eq_refl))).
    split; [reflexivity|].
    exists 0%nat, 1%nat, Duplicates.first, Duplicates.second. repeat split; done.
Defined.
